(** * Secret vault of Cultured Downloader: a shallow embedding of
      [utils/user_data.py], [utils/functional.py] and
      [utils/cryptography_operations.py], with the properties of the
      vault proved over it.

    Conventions.
    - A Python [bytes] object is a [list byte]; a Python [str] is a Rocq
      [string] holding the UTF-8 code units of the text, so that
      [bytes.decode("utf-8")] is a validity check and [str.split(".")] cuts
      at the code unit 46.
    - A file holds a [string], its bytes. Binary mode converts to and from
      [list byte]. A text-mode read decodes the bytes strictly (the
      preferred encoding is taken to be UTF-8, as on Linux and macOS), so it
      raises [UnicodeDecodeError] on bytes that are not UTF-8, and it
      translates the line endings CR LF and CR to LF (universal newlines);
      a text-mode write stores the code units as they are.
    - Stateful code is written in a state-and-exception monad [M] over a
      [world] (file system, scripted network replies, entropy counter, log).
    - Library code that the sources call but do not define (the AEAD
      cipher, the RSA primitives of the [cryptography] package, JSON,
      pydantic models, regular expressions) is a field of the class
      [Library]. *)

From Stdlib Require Import ZArith NArith List String Ascii Bool Lia.
From Stdlib.Strings Require Import Byte.
From stdpp Require Import gmap strings list.

Set Warnings "-register-all".
Local Open Scope Z_scope.

(** ** Bytes *)

Module Bytes.

Definition byte_val (b : byte) : Z := Z.of_N (Byte.to_N b).

(** Storing an [int] into an [unsigned char]. *)
Definition byte_of_Z (z : Z) : byte :=
  match Byte.of_N (Z.to_N (z mod 256)) with
  | Some b => b
  | None => x00
  end.

Definition ascii_val (c : ascii) : Z := Z.of_N (N_of_ascii c).

(** Carriage return and line feed *)
Definition CR : ascii := ascii_of_nat 13.
Definition LF : ascii := ascii_of_nat 10.

End Bytes.
Export Bytes.

(** ** Base64 (RFC 4648), as [base64.b64encode] and [base64.b64decode] of
       the Python library compute it. *)

Module Base64.

Definition alphabet : list ascii :=
  list_ascii_of_string
    "ABCDEFGHIJKLMNOPQRSTUVWXYZabcdefghijklmnopqrstuvwxyz0123456789+/".

Definition BASE64_PAD : ascii := "="%char.

(** [table_b2a_base64]: the character of a six-bit value. *)
Definition table_b2a (v : Z) : ascii :=
  nth (Z.to_nat v) alphabet BASE64_PAD.

Fixpoint index_of (c : ascii) (l : list ascii) (i : Z) : option Z :=
  match l with
  | [] => None
  | d :: l' => if Ascii.eqb c d then Some i else index_of c l' (i + 1)
  end.

(** [table_a2b_base64]: [None] stands for the entries that are 64 or more,
    the characters outside the alphabet. *)
Definition table_a2b (c : ascii) : option Z := index_of c alphabet 0.

(** The four characters of a full group of three bytes. *)
Definition enc3 (a b c : byte) : list ascii :=
  let n := Z.lor (Z.shiftl (byte_val a) 16)
                 (Z.lor (Z.shiftl (byte_val b) 8) (byte_val c)) in
  [ table_b2a (Z.land (Z.shiftr n 18) 63);
    table_b2a (Z.land (Z.shiftr n 12) 63);
    table_b2a (Z.land (Z.shiftr n 6) 63);
    table_b2a (Z.land n 63) ].

Fixpoint b2a_base64 (data : list byte) : list ascii :=
  match data with
  | [] => []
  | [a] =>
      let n := Z.shiftl (byte_val a) 16 in
      [ table_b2a (Z.land (Z.shiftr n 18) 63);
        table_b2a (Z.land (Z.shiftr n 12) 63);
        BASE64_PAD; BASE64_PAD ]
  | [a; b] =>
      let n := Z.lor (Z.shiftl (byte_val a) 16) (Z.shiftl (byte_val b) 8) in
      [ table_b2a (Z.land (Z.shiftr n 18) 63);
        table_b2a (Z.land (Z.shiftr n 12) 63);
        table_b2a (Z.land (Z.shiftr n 6) 63);
        BASE64_PAD ]
  | a :: b :: c :: rest => enc3 a b c ++ b2a_base64 rest
  end.

(** [base64.b64encode(s)]: a [bytes] object of ASCII characters. *)
Definition b64encode (s : list byte) : list byte :=
  map byte_of_ascii (b2a_base64 s).

(** The loop of [binascii.a2b_base64] with [strict_mode] off: characters
    outside the alphabet are skipped, a complete pad sequence ends the
    parse, and [None] is [binascii.Error] (one stray character, or
    incorrect padding). *)
Fixpoint a2b_loop (input : list ascii) (quad_pos leftchar pads : Z)
  : option (list byte) :=
  match input with
  | [] => if quad_pos =? 0 then Some [] else None
  | this_ch :: input' =>
      if Ascii.eqb this_ch BASE64_PAD then
        if (2 <=? quad_pos) && (4 <=? quad_pos + (pads + 1)) then Some []
        else a2b_loop input' quad_pos leftchar
               (if 2 <=? quad_pos then pads + 1 else pads)
      else
        match table_a2b this_ch with
        | None => a2b_loop input' quad_pos leftchar pads
        | Some v =>
            if quad_pos =? 0 then a2b_loop input' 1 v 0
            else if quad_pos =? 1 then
              cons (byte_of_Z (Z.lor (Z.shiftl leftchar 2) (Z.shiftr v 4)))
                <$> a2b_loop input' 2 (Z.land v 15) 0
            else if quad_pos =? 2 then
              cons (byte_of_Z (Z.lor (Z.shiftl leftchar 4) (Z.shiftr v 2)))
                <$> a2b_loop input' 3 (Z.land v 3) 0
            else
              cons (byte_of_Z (Z.lor (Z.shiftl leftchar 6) v))
                <$> a2b_loop input' 0 0 0
        end
  end.

Definition a2b_base64 (input : list ascii) : option (list byte) :=
  a2b_loop input 0 0 0.

Definition is_ascii (c : ascii) : bool := ascii_val c <? 128.

Inductive b64_error := IncorrectPadding | NonAscii.

(** [base64.b64decode(s)] on a [str]: the text is first encoded as ASCII
    ([ValueError] when it is not), then handed to [a2b_base64]. *)
Definition b64decode (s : string) : b64_error + list byte :=
  let cs := list_ascii_of_string s in
  if forallb is_ascii cs then
    match a2b_base64 cs with
    | Some bs => inr bs
    | None => inl IncorrectPadding
    end
  else inl NonAscii.

(** The 24-bit group of three byte values. *)
Definition group (a b c : Z) : Z := a * 65536 + b * 256 + c.

Definition sextet (n i : Z) : Z := Z.land (Z.shiftr n i) 63.

(** A character that may stand in a field of the envelope: ASCII, not the
    dot, and no carriage return. *)
Definition envelope_char (c : ascii) : bool :=
  is_ascii c && negb (Ascii.eqb c "."%char) && negb (Ascii.eqb c CR).

(** The check that the two tables are inverse at [v], and that the
    character of [v] is not the pad and may stand in a field. *)
Definition table_ok (v : Z) : bool :=
  match table_a2b (table_b2a v) with
  | Some v' => v' =? v
  | None => false
  end
  && negb (Ascii.eqb (table_b2a v) BASE64_PAD)
  && envelope_char (table_b2a v).

End Base64.
Export Base64.

(** ** Python values, exceptions and text *)

Module Python.

(** A JSON document, which is also the Python object [json.loads] builds:
    [JNull] is [None], [JStr] a [str], [JArr] a [list], [JObj] a [dict]
    (kept as an association list in insertion order). *)
Inductive json :=
| JNull
| JBool (b : bool)
| JNum (z : Z)
| JStr (s : string)
| JArr (items : list json)
| JObj (fields : list (string * json)).

(** The objects the vault handles: [bytes], or one of the above. *)
Inductive pyvalue :=
| VBytes (b : list byte)
| VJson (j : json).

Abbreviation VNone := (VJson JNull).
Abbreviation VStr s := (VJson (JStr s)).

Definition is_None (v : pyvalue) : bool :=
  match v with VNone => true | _ => false end.

(** [x is not None] for an optional argument *)
Definition given {A} (x : option A) : bool :=
  match x with Some _ => true | None => false end.

(** What [log_api_error] is called with. *)
Inductive api_error :=
| BadStatus (status_code : Z) (text : string)
| ErrorField (error : json)
| InvalidFormat.

Inductive exn :=
| APIServerError (detail : api_error)
| ConnectError
| ReadTimeout
| ConnectTimeout
| JSONDecodeError
| BinasciiError
| UnicodeDecodeError
| ValueError (msg : string)
| TypeError (msg : string)
| KeyError (key : string)
| InvalidTag
| OSError (msg : string)
| OtherException (msg : string).

(** [isinstance(e, ValueError)]: [binascii.Error], [UnicodeDecodeError]
    and [json.JSONDecodeError] are subclasses of [ValueError]. *)
Definition is_ValueError (e : exn) : bool :=
  match e with
  | ValueError _ | BinasciiError | UnicodeDecodeError | JSONDecodeError => true
  | _ => false
  end.

Definition is_TypeError (e : exn) : bool :=
  match e with TypeError _ => true | _ => false end.

Definition is_InvalidTag (e : exn) : bool :=
  match e with InvalidTag => true | _ => false end.

Definition is_JSONDecodeError (e : exn) : bool :=
  match e with JSONDecodeError => true | _ => false end.

Definition is_APIServerError (e : exn) : bool :=
  match e with APIServerError _ => true | _ => false end.

(** [(httpx.ConnectError, httpx.ReadTimeout, httpx.ConnectTimeout)] *)
Definition is_httpx_transient (e : exn) : bool :=
  match e with
  | ConnectError | ReadTimeout | ConnectTimeout => true
  | _ => false
  end.

Inductive outcome (A : Type) :=
| Ok (a : A)
| Raise (e : exn).
Arguments Ok {A} a.
Arguments Raise {A} e.

(** [s.split(sep)] for a one-character separator. *)
Fixpoint split (sep : ascii) (s : string) : list string :=
  match s with
  | EmptyString => [EmptyString]
  | String c s' =>
      if Ascii.eqb c sep then EmptyString :: split sep s'
      else match split sep s' with
           | f :: fs => String c f :: fs
           | [] => [String c EmptyString]
           end
  end.

(** [sep.join((a, b))] *)
Definition join2 (sep a b : string) : string := (a ++ sep ++ b)%string.

Definition in_range (lo hi : Z) (b : byte) : bool :=
  (lo <=? byte_val b) && (byte_val b <=? hi).

(** Well-formed UTF-8 (Unicode, table 3-7), what the strict decoder
    accepts. *)
Fixpoint utf8_valid (bs : list byte) : bool :=
  match bs with
  | [] => true
  | b0 :: r0 =>
      if in_range 0 127 b0 then utf8_valid r0
      else if in_range 194 223 b0 then
        match r0 with
        | b1 :: r1 => in_range 128 191 b1 && utf8_valid r1
        | _ => false
        end
      else if in_range 224 239 b0 then
        match r0 with
        | b1 :: b2 :: r2 =>
            (if in_range 224 224 b0 then in_range 160 191 b1
             else if in_range 237 237 b0 then in_range 128 159 b1
             else in_range 128 191 b1)
            && in_range 128 191 b2 && utf8_valid r2
        | _ => false
        end
      else if in_range 240 244 b0 then
        match r0 with
        | b1 :: b2 :: b3 :: r3 =>
            (if in_range 240 240 b0 then in_range 144 191 b1
             else if in_range 244 244 b0 then in_range 128 143 b1
             else in_range 128 191 b1)
            && in_range 128 191 b2 && in_range 128 191 b3 && utf8_valid r3
        | _ => false
        end
      else false
  end.

(** Universal newlines: what a text-mode read makes of the line endings. *)
Fixpoint universal_newlines (s : string) : string :=
  match s with
  | EmptyString => EmptyString
  | String c s' =>
      if Ascii.eqb c CR then
        match s' with
        | String d s'' =>
            if Ascii.eqb d LF then String LF (universal_newlines s'')
            else String LF (universal_newlines s')
        | EmptyString => String LF EmptyString
        end
      else String c (universal_newlines s')
  end.

(** A code unit that continues a character of more than one code unit. *)
Definition is_continuation (c : ascii) : bool :=
  (128 <=? ascii_val c) && (ascii_val c <? 192).

(** The characters of a text, each with its code units. *)
Fixpoint characters (s : string) : list string :=
  match s with
  | EmptyString => []
  | String c s' =>
      match s' with
      | String d _ =>
          if is_continuation d then
            match characters s' with
            | first :: rest => String c first :: rest
            | [] => [String c EmptyString]
            end
          else String c EmptyString :: characters s'
      | EmptyString => [String c EmptyString]
      end
  end.

(** [b.decode("utf-8")] *)
Definition bytes_decode (b : list byte) : outcome string :=
  if utf8_valid b then Ok (string_of_list_byte b) else Raise UnicodeDecodeError.

(** [s.encode("utf-8")] *)
Definition str_encode (s : string) : list byte := list_byte_of_string s.

Fixpoint assoc (k : string) (fields : list (string * json)) : option json :=
  match fields with
  | [] => None
  | (k', v) :: rest => if String.eqb k k' then Some v else assoc k rest
  end.

Fixpoint is_prefix (p s : string) : bool :=
  match p, s with
  | EmptyString, _ => true
  | String a p', String b s' => Ascii.eqb a b && is_prefix p' s'
  | String _ _, EmptyString => false
  end.

Fixpoint is_substring (p s : string) : bool :=
  is_prefix p s ||
  match s with
  | EmptyString => false
  | String _ s' => is_substring p s'
  end.

(** [key in obj]: membership of a key in a [dict], of an element in a
    [list], of a substring in a [str]; the other objects are not
    containers. *)
Definition py_contains (key : string) (obj : json) : outcome bool :=
  match obj with
  | JObj fields => Ok (given (assoc key fields))
  | JArr items =>
      Ok (existsb (fun j => match j with
                            | JStr s => String.eqb s key
                            | _ => false
                            end) items)
  | JStr s => Ok (is_substring key s)
  | _ => Raise (TypeError "argument is not iterable")
  end.

(** [obj == s] for a [str] literal [s] *)
Definition is_the_str (obj : json) (s : string) : bool :=
  match obj with
  | JStr s' => String.eqb s' s
  | _ => false
  end.

(** [hash(obj)] works: lists and dicts are unhashable. *)
Definition hashable (obj : json) : bool :=
  match obj with
  | JArr _ | JObj _ => false
  | _ => true
  end.

(** An element of the sequence handed to [dict()]: an iterable of exactly
    two objects, the first of them hashable. [None] is the [TypeError] or
    [ValueError] of [dict()]. *)
Definition key_and_value (item : json) : option (json * json) :=
  match item with
  | JArr [k; v] => if hashable k then Some (k, v) else None
  | JStr t =>
      match characters t with
      | [a; b] => Some (JStr a, JStr b)
      | _ => None
      end
  | JObj [(a, _); (b, _)] => Some (JStr a, JStr b)
  | _ => None
  end.

Fixpoint keys_and_values (items : list json) : option (list (json * json)) :=
  match items with
  | [] => Some []
  | item :: rest =>
      match key_and_value item, keys_and_values rest with
      | Some kv, Some kvs => Some (kv :: kvs)
      | _, _ => None
      end
  end.

(** [dict(obj)] for an object that is no [dict]: the empty text and a
    list of pairs convert, nothing else does. *)
Definition dict_of (obj : json) : option (list (json * json)) :=
  match obj with
  | JStr EmptyString => Some []
  | JArr items => keys_and_values items
  | _ => None
  end.

(** [d[k] = v] on the fields of a [dict] with [str] keys *)
Fixpoint store (k : string) (v : json) (fields : list (string * json))
  : list (string * json) :=
  match fields with
  | [] => [(k, v)]
  | (k', x) :: rest =>
      if String.eqb k' k then (k', v) :: rest else (k', x) :: store k v rest
  end.

(** The keywords of a call that unpacks a [dict] into its arguments: every
    key has to be a [str]; [None] is the [TypeError] of the call. *)
Fixpoint keywords_of (pairs : list (json * json)) (fields : list (string * json))
  : option (list (string * json)) :=
  match pairs with
  | [] => Some fields
  | (JStr k, v) :: rest => keywords_of rest (store k v fields)
  | _ :: _ => None
  end.

(** [not obj]: the objects that count as false. *)
Definition falsy_json (j : json) : bool :=
  match j with
  | JNull | JBool false | JNum 0 | JStr EmptyString | JArr [] | JObj [] => true
  | _ => false
  end.

(** [obj[key]] for a [str] key. *)
Definition py_getitem (obj : json) (key : string) : outcome json :=
  match obj with
  | JObj fields =>
      match assoc key fields with
      | Some v => Ok v
      | None => Raise (KeyError key)
      end
  | _ => Raise (TypeError "indices must be integers")
  end.

End Python.
Export Python.

(** ** The world: files, network, entropy, log *)

Module World.

(** Modelled from the spec: [constants.py] is not among the sources; the
    paths [C.SECRET_KEY_PATH], [C.KEY_ID_TOKEN_JSON_PATH], ... that the
    code names are taken to be pairwise distinct files (one raw key file,
    one token document, one envelope file per secret kind). [OtherPath] is
    any other path, such as the download directory of the configuration. *)
Inductive path :=
| SECRET_KEY_PATH
| KEY_ID_TOKEN_JSON_PATH
| CONFIG_JSON_FILE_PATH
| FANTIA_COOKIE_PATH
| PIXIV_FANBOX_COOKIE_PATH
| GDRIVE_API_KEY_PATH
| PIXIV_REFRESH_TOKEN_PATH
| DANBOORU_AUTH_PATH
| OtherPath (name : string).

Definition path_code (p : path) : nat + string :=
  match p with
  | SECRET_KEY_PATH => inl 0%nat
  | KEY_ID_TOKEN_JSON_PATH => inl 1%nat
  | CONFIG_JSON_FILE_PATH => inl 2%nat
  | FANTIA_COOKIE_PATH => inl 3%nat
  | PIXIV_FANBOX_COOKIE_PATH => inl 4%nat
  | GDRIVE_API_KEY_PATH => inl 5%nat
  | PIXIV_REFRESH_TOKEN_PATH => inl 6%nat
  | DANBOORU_AUTH_PATH => inl 7%nat
  | OtherPath name => inr name
  end.

Definition path_of_code (c : nat + string) : path :=
  match c with
  | inl 0%nat => SECRET_KEY_PATH
  | inl 1%nat => KEY_ID_TOKEN_JSON_PATH
  | inl 2%nat => CONFIG_JSON_FILE_PATH
  | inl 3%nat => FANTIA_COOKIE_PATH
  | inl 4%nat => PIXIV_FANBOX_COOKIE_PATH
  | inl 5%nat => GDRIVE_API_KEY_PATH
  | inl 6%nat => PIXIV_REFRESH_TOKEN_PATH
  | inl _ => DANBOORU_AUTH_PATH
  | inr name => OtherPath name
  end.

#[global] Instance path_eq_dec : EqDecision path.
Proof. solve_decision. Defined.

#[global] Instance path_countable : Countable path.
Proof.
  apply (inj_countable' path_code path_of_code).
  intros []; reflexivity.
Defined.

(** What a path leads to; a path outside the map does not exist. *)
Inductive node :=
| Dir
| File (content : string).

Record response := {
  status_code : Z;
  text : string;
  cookies : list (string * string)
}.

(** What the next HTTP exchange yields: a response, or an exception of the
    client (a connection error, a timeout). *)
Inductive reply :=
| Responds (res : response)
| Fails (e : exn).

Inductive event :=
| Requested (method url : string) (cookies : list (string * string))
    (body : json)
| Slept (delay : Z)
| LoggedError (detail : api_error)
| LoggedHttpxError (e : exn)
| LoggedInfo (msg : string)
| Warned (msg : string)
| GeneratedRSAKey (public_exponent key_size : Z)
| Joined (website : string)
| PrintedDanger (msg : string)
| PrintedSuccess (msg : string).

Record world := {
  fs : gmap path node;
  net : list reply;
  seed : nat;
  log : list event
}.

Definition set_fs (f : gmap path node -> gmap path node) (w : world) : world :=
  {| fs := f (fs w); net := net w; seed := seed w; log := log w |}.

Definition set_net (n : list reply) (w : world) : world :=
  {| fs := fs w; net := n; seed := seed w; log := log w |}.

Definition next_seed (w : world) : world :=
  {| fs := fs w; net := net w; seed := S (seed w); log := log w |}.

Definition add_log (e : event) (w : world) : world :=
  {| fs := fs w; net := net w; seed := seed w; log := log w ++ [e] |}.

(** State and exceptions: an exception keeps the effects made so far. *)
Definition M (A : Type) : Type := world -> outcome A * world.

Definition ret {A} (a : A) : M A := fun w => (Ok a, w).

Definition raise {A} (e : exn) : M A := fun w => (Raise e, w).

Definition bind {A B} (m : M A) (k : A -> M B) : M B :=
  fun w =>
    match m w with
    | (Ok a, w') => k a w'
    | (Raise e, w') => (Raise e, w')
    end.

(** [try: m  except <classes caught>: handler] *)
Definition try_except {A} (m : M A) (caught : exn -> bool)
    (handler : exn -> M A) : M A :=
  fun w =>
    match m w with
    | (Ok a, w') => (Ok a, w')
    | (Raise e, w') => if caught e then handler e w' else (Raise e, w')
    end.

Definition lift {A} (r : outcome A) : M A := fun w => (r, w).

Definition get_world : M world := fun w => (Ok w, w).

Definition emit (e : event) : M unit := fun w => (Ok tt, add_log e w).

(** A fresh draw of the entropy source. *)
Definition fresh : M nat := fun w => (Ok (seed w), next_seed w).

End World.
Export World.

Declare Scope monad_scope.
Delimit Scope monad_scope with monad.
Notation "x <- m ;; k" := (bind m (fun x => k))
  (at level 20, m at level 99, k at level 200, only parsing) : monad_scope.
Notation "m ;; k" := (bind m (fun _ => k))
  (at level 100, k at level 200, only parsing, right associativity)
  : monad_scope.
Notation "' pat <- m ;; k" := (bind m (fun x => match x with pat => k end))
  (at level 20, pat pattern, m at level 99, k at level 200, only parsing)
  : monad_scope.
Open Scope monad_scope.

(** ** The file system *)

Module FS.

(** [p.exists() and p.is_file()] *)
Definition is_file (p : path) : M bool :=
  fun w => (Ok (match fs w !! p with Some (File _) => true | _ => false end), w).

(** [p.exists() and p.is_dir()] *)
Definition is_dir (p : path) : M bool :=
  fun w => (Ok (match fs w !! p with Some Dir => true | _ => false end), w).

(** What a text-mode read makes of the bytes of a file: they are decoded
    strictly, and the line endings translated. *)
Definition text_of_file (content : string) : outcome string :=
  if utf8_valid (list_byte_of_string content)
  then Ok (universal_newlines content)
  else Raise UnicodeDecodeError.

(** [open(p, "r").read()] *)
Definition read_text (p : path) : M string :=
  fun w =>
    match fs w !! p with
    | Some (File content) => (text_of_file content, w)
    | Some Dir => (Raise (OSError "is a directory"), w)
    | None => (Raise (OSError "no such file"), w)
    end.

(** [open(p, "rb").read()] *)
Definition read_bytes (p : path) : M (list byte) :=
  fun w =>
    match fs w !! p with
    | Some (File content) => (Ok (list_byte_of_string content), w)
    | Some Dir => (Raise (OSError "is a directory"), w)
    | None => (Raise (OSError "no such file"), w)
    end.

(** [open(p, "w").write(s)]: the file is created or truncated. *)
Definition write_text (p : path) (s : string) : M unit :=
  fun w =>
    match fs w !! p with
    | Some Dir => (Raise (OSError "is a directory"), w)
    | _ => (Ok tt, set_fs (insert p (File s)) w)
    end.

(** [open(p, "wb").write(b)] *)
Definition write_bytes (p : path) (b : list byte) : M unit :=
  write_text p (string_of_list_byte b).

(** [p.unlink()] *)
Definition unlink (p : path) : M unit :=
  fun w =>
    match fs w !! p with
    | Some (File _) => (Ok tt, set_fs (delete p) w)
    | Some Dir => (Raise (OSError "is a directory"), w)
    | None => (Raise (OSError "no such file"), w)
    end.

End FS.
Export FS.

(** ** Constants and library primitives *)

Module Lib.

#[global] Instance byte_eq_decision : EqDecision byte := Byte.byte_eq_dec.

(** A compiled regular expression, by the texts [regex.match] accepts. *)
Definition Pattern : Type := string -> bool.

(** A pydantic model class, by what the class makes of the fields of a
    [dict] it is called with: the fields of the model object, or [None]
    for a [ValidationError]. *)
Record BaseModel := {
  model_name : string;
  model_of_fields : list (string * json) -> option json
}.

(** [schema.parse_obj(obj)] of pydantic 1: an object that is no [dict] is
    first handed to [dict()], whose failure is a [ValidationError]; the
    class is then called with the items as keywords, which raises
    [TypeError] when a key is no [str]. *)
Definition parse_obj (schema : BaseModel) (obj : json) : outcome (option json) :=
  match obj with
  | JObj fields => Ok (model_of_fields schema fields)
  | _ =>
      match dict_of obj with
      | None => Ok None
      | Some pairs =>
          match keywords_of pairs [] with
          | Some fields => Ok (model_of_fields schema fields)
          | None => Raise (TypeError "keywords must be strings")
          end
      end
  end.

(** The constants [C] of [constants.py] that the vault reads. *)
Class Constants := {
  MAX_RETRIES : nat;
  RETRY_DELAY : Z;
  API_URL : string;
  IS_64BITS : bool;
  GOOGLE_API_KEY_REGEX : Pattern;
  PIXIV_REFRESH_TOKEN_REGEX : Pattern;
  (** [str(pathlib.Path.home().joinpath("Desktop", "cultured-downloader"))] *)
  DESKTOP_DOWNLOAD_DIRECTORY : string;
  WEBSITE_URL : string;
  SERVER_PUBLIC_KEY_SCHEMA : BaseModel
}.

(** Library code. [user_data.py] calls [chacha_encrypt], [chacha_decrypt]
    and [generate_chacha20_key], which [cryptography_operations.py] does
    not define: these three are primitives here, with the signatures of
    the calls in [user_data.py]. The RSA primitives are those of the
    [cryptography] package that [cryptography_operations.py] calls. A
    primitive that draws randomness takes the draw as its last argument. *)
Class Library := {
  (** [json.loads]; [None] is [json.JSONDecodeError] *)
  json_loads : string -> option json;
  (** [json.dumps(obj, indent=indent)] *)
  json_dumps : option Z -> json -> string;
  (** [chacha_encrypt(plaintext, key)]: ciphertext and nonce *)
  chacha_encrypt : pyvalue -> list byte -> nat -> outcome (list byte * list byte);
  (** [chacha_decrypt(ciphertext, key, nonce)] *)
  chacha_decrypt : list byte -> list byte -> list byte -> outcome (list byte);
  generate_chacha20_key : nat -> list byte;
  rsa_private_key : Type;
  (** [rsa.generate_private_key(public_exponent, key_size)] *)
  rsa_generate_private_key : Z -> Z -> nat -> rsa_private_key;
  (** [key.private_bytes(PEM, PKCS8, NoEncryption())] *)
  private_bytes : rsa_private_key -> list byte;
  (** [key.public_key().public_bytes(PEM, SubjectPublicKeyInfo)] *)
  public_bytes : rsa_private_key -> list byte;
  (** [serialization.load_pem_private_key(data, password=None)] *)
  load_pem_private_key : list byte -> outcome rsa_private_key;
  rsa_public_key : Type;
  (** [serialization.load_pem_public_key(data)] *)
  load_pem_public_key : list byte -> outcome rsa_public_key;
  (** the classes of [hashes] that are subclasses of [HashAlgorithm], by
      name *)
  is_hash_algorithm : string -> bool;
  (** [publicKey.encrypt(plaintext, OAEP(MGF1(hashAlgo), hashAlgo))] *)
  oaep_encrypt : rsa_public_key -> list byte -> string -> nat
                 -> outcome (list byte);
  (** [privateKey.decrypt(ciphertext, OAEP(MGF1(hashAlgo), hashAlgo))] *)
  oaep_decrypt : rsa_private_key -> list byte -> string -> outcome (list byte);
  (** the pydantic models of [schemas] whose fields the vault never reads *)
  CookieSchema : BaseModel;
  ConfigSchema : BaseModel;
  (** the fields of a [ConfigSchema] built with no argument *)
  ConfigSchema_default : json
}.

(** Modelled from the spec: the [schemas] package is not among the sources
    (but for [DanbooruAuthSchema]); the escrow endpoints answer
    [{csrf_token}], [{secret_key}] and [{key_id_token}], and the token
    document is [{key_id_token: <string>}]: a model with one required
    string field. *)
Definition one_str_field (name field : string) : BaseModel :=
  {| model_name := name;
     model_of_fields fields :=
       match assoc field fields with
       | Some (JStr s) => Some (JObj [(field, JStr s)])
       | _ => None
       end |}.

Definition APICsrfResponse : BaseModel :=
  one_str_field "APICsrfResponse" "csrf_token".
Definition APIKeyResponse : BaseModel :=
  one_str_field "APIKeyResponse" "secret_key".
Definition APIKeyIDResponse : BaseModel :=
  one_str_field "APIKeyIDResponse" "key_id_token".
Definition KeyIdToken : BaseModel :=
  one_str_field "KeyIdToken" "key_id_token".

(** [Optional[str] = None]: absent or [None] gives [None], a string is
    kept, numbers and booleans are coerced by pydantic and kept here as
    they are, containers are refused. *)
Definition optional_str (field : string) (fields : list (string * json))
  : option json :=
  match assoc field fields with
  | None => Some JNull
  | Some (JArr _) | Some (JObj _) => None
  | Some v => Some v
  end.

(** [schemas/danbooru_auth.py] *)
Definition DanbooruAuthSchema : BaseModel :=
  {| model_name := "DanbooruAuthSchema";
     model_of_fields fields :=
       match optional_str "username" fields,
             optional_str "api_key" fields with
       | Some u, Some k => Some (JObj [("username", u); ("api_key", k)])
       | _, _ => None
       end |}.

End Lib.
Export Lib.

(** ** [utils/functional.py] *)

Module Functional.
Section Functional.
Context `{C : Constants} `{L : Library}.

Definition website_to_readable_format (website : string) : outcome string :=
  if String.eqb website "fantia" then Ok "Fantia"%string
  else if String.eqb website "pixiv_fanbox" then Ok "Pixiv Fanbox"%string
  else Raise (ValueError "Invalid website").

(** Logs, then raises [APIServerError]. *)
Definition log_api_error {A} (error_msg : api_error) : M A :=
  emit (LoggedError error_msg) ;; raise (APIServerError error_msg).

(** The [try] block of [validate_schema]: [schema.parse_raw(data)] for a
    [str] (the text is loaded as JSON, then parsed as an object),
    [schema.parse_obj(data)] for a [dict] or a [list]; [Ok None] is the
    [ValidationError], which is the one exception the block catches. *)
Definition parse_data (schema : BaseModel) (data : json)
  : outcome (option json) :=
  match data with
  | JStr s =>
      match json_loads s with
      | Some j => parse_obj schema j
      | None => Ok None
      end
  | _ => parse_obj schema data
  end.

(** [validate_schema(schema, data, return_bool, log_failure=True)]: [None]
    is the [False] it returns for invalid data; with [return_bool] callers
    only test the result. *)
Definition validate_schema (schema : BaseModel) (data : json)
  : M (option json) :=
  match data with
  | JStr _ | JObj _ | JArr _ =>
      parsed <- lift (parse_data schema data) ;;
      match parsed with
      | Some pydantic_obj => ret (Some pydantic_obj)
      | None => emit (LoggedInfo (model_name schema)) ;; ret None
      end
  | _ => ret None
  end.

(** What [validate_schema] makes of data of a type it takes: the model
    object, [Ok None] for the [False] it returns, or the exception it
    lets through. *)
Definition validated (schema : BaseModel) (data : json)
  : outcome (option json) :=
  match data with
  | JStr _ | JObj _ | JArr _ => parse_data schema data
  | _ => Ok None
  end.

(** [validate_schema] returns a model object (or [True]). *)
Definition schema_accepts (schema : BaseModel) (data : json) : bool :=
  match validated schema data with
  | Ok (Some _) => true
  | _ => false
  end.

(** [validate_schema] returns [False]. *)
Definition schema_refuses (schema : BaseModel) (data : json) : bool :=
  match validated schema data with
  | Ok None => true
  | _ => false
  end.

Definition edit_configs (new_configs : json) : M unit :=
  write_text CONFIG_JSON_FILE_PATH (json_dumps (Some 4) new_configs).

(** [obj.field = v] on a model object *)
Fixpoint set_field (field : string) (v : json) (fields : list (string * json))
  : list (string * json) :=
  match fields with
  | [] => [(field, v)]
  | (k, x) :: rest =>
      if String.eqb k field then (k, v) :: rest
      else (k, x) :: set_field field v rest
  end.

Definition set_attr (obj : json) (field : string) (v : json) : json :=
  match obj with
  | JObj fields => JObj (set_field field v fields)
  | _ => JObj [(field, v)]
  end.

(** [obj.field]; a field the model lacks reads as [None]. *)
Definition get_attr (obj : json) (field : string) : json :=
  match obj with
  | JObj fields =>
      match assoc field fields with Some v => v | None => JNull end
  | _ => JNull
  end.

Definition load_configs : M json :=
  has_file <- is_file CONFIG_JSON_FILE_PATH ;;
  configs <-
    (if has_file : bool then
       content <- read_text CONFIG_JSON_FILE_PATH ;;
       match json_loads content with
       | Some j => ret j
       | None => raise JSONDecodeError
       end
     else ret (JObj [])) ;;
  validated <- validate_schema ConfigSchema configs ;;
  schema_obj <-
    match validated with
    | Some o => ret o
    | None => edit_configs ConfigSchema_default ;; ret ConfigSchema_default
    end ;;
  has_dir <-
    match get_attr schema_obj "download_directory" with
    | JStr d => is_dir (OtherPath d)
    | _ => ret false
    end ;;
  if has_dir : bool then ret schema_obj
  else ret (set_attr schema_obj "download_directory"
              (JStr DESKTOP_DOWNLOAD_DIRECTORY)).

End Functional.
End Functional.
Export Functional.

(** ** Requests and responses *)

Module Http.
Section Http.
Context `{L : Library}.

(** One exchange of an [httpx.Client]: the request is logged and the next
    scripted reply consumed; with no reply left the connection fails. *)
Definition client_send (method url : string)
    (cookies : list (string * string)) (body : json) : M response :=
  fun w =>
    let w1 := add_log (Requested method url cookies body) w in
    match net w1 with
    | [] => (Raise ConnectError, w1)
    | Responds res :: rest => (Ok res, set_net rest w1)
    | Fails e :: rest => (Raise e, set_net rest w1)
    end.

(** [requests.get(url)]: the same exchange; an exchange that fails raises
    the [ConnectionError] of [requests], an [OSError]. *)
Definition requests_get (url : string) : M response :=
  fun w =>
    let w1 := add_log (Requested "GET" url [] JNull) w in
    match net w1 with
    | [] => (Raise (OSError "requests.exceptions.ConnectionError"), w1)
    | Responds res :: rest => (Ok res, set_net rest w1)
    | Fails _ :: rest =>
        (Raise (OSError "requests.exceptions.ConnectionError"), set_net rest w1)
    end.

(** [res.json()] *)
Definition res_json (res : response) : M json :=
  match json_loads (text res) with
  | Some j => ret j
  | None => raise JSONDecodeError
  end.

End Http.
End Http.
Export Http.

(** ** [utils/cryptography_operations.py] *)

Module CryptographyOperations.
Section CryptographyOperations.
Context `{C : Constants} `{L : Library}.

(** [generate_rsa_key_pair()]: private and public key, PEM-encoded. The
    log keeps one [GeneratedRSAKey] per key generated. *)
Definition generate_rsa_key_pair : M (list byte * list byte) :=
  draw <- fresh ;;
  let privateKey := rsa_generate_private_key 65537 2048 draw in
  emit (GeneratedRSAKey 65537 2048) ;;
  ret (private_bytes privateKey, public_bytes privateKey).

(** An object that [rsa_encrypt] or [rsa_decrypt] is called with: a value,
    a class (by its name), or a private key object. *)
Inductive argument :=
| Value (v : pyvalue)
| Class (name : string)
| KeyObject (key : rsa_private_key).

(** The keyword arguments of a call, in the order they are written. *)
Definition keywords : Type := list (string * argument).

Fixpoint keyword (name : string) (kwargs : keywords) : option argument :=
  match kwargs with
  | [] => None
  | (name', a) :: rest =>
      if String.eqb name name' then Some a else keyword name rest
  end.

(** How a call binds its keywords to the parameters of a function that
    takes no further keywords: the first keyword that names no parameter
    is refused, then a parameter without default that is not given. *)
Definition bind_keywords (function : string) (parameters required : list string)
    (kwargs : keywords) : outcome unit :=
  match List.find
          (fun kw => negb (existsb (String.eqb (fst kw)) parameters)) kwargs
  with
  | Some (name, _) =>
      Raise (TypeError (function ++ "() got an unexpected keyword argument '"
                        ++ name ++ "'"))
  | None =>
      if forallb (fun parameter => given (keyword parameter kwargs)) required
      then Ok tt
      else Raise (TypeError (function
                             ++ "() missing required positional arguments"))
  end.

(** A parameter as the body reads it: the argument given, or the
    default. *)
Definition parameter (name : string) (default : argument) (kwargs : keywords)
  : argument :=
  match keyword name kwargs with
  | Some a => a
  | None => default
  end.

(** [if (not issubclass(digestMethod, hashes.HashAlgorithm)): raise
    TypeError(...)]; [issubclass] itself raises [TypeError] on what is no
    class. The name of the class is returned. *)
Definition check_digest_method (digestMethod : argument) : outcome string :=
  match digestMethod with
  | Class name =>
      if is_hash_algorithm name then Ok name
      else Raise (TypeError "digestMethod must be a subclass of cryptography.hazmat.primitives.hashes.HashAlgorithm")
  | _ => Raise (TypeError "issubclass() arg 1 must be a class")
  end.

(** The bytes the library encrypts or decrypts; it refuses what is no
    [bytes]. *)
Definition bytes_argument (a : argument) : outcome (list byte) :=
  match a with
  | Value (VBytes b) => Ok b
  | _ => Raise (TypeError "data must be bytes")
  end.

(** [if (x):] on an argument *)
Definition truth (a : argument) : bool :=
  match a with
  | Value (VBytes b) => negb (bool_decide (b = []))
  | Value (VJson j) => negb (falsy_json j)
  | Class _ | KeyObject _ => true
  end.

(** [rsa_encrypt(plaintext, digestMethod=hashes.SHA512)], called with the
    keywords [kwargs]. *)
Definition rsa_encrypt (kwargs : keywords) : M (list byte) :=
  lift (bind_keywords "rsa_encrypt" ["plaintext"; "digestMethod"]
          ["plaintext"] kwargs) ;;
  let plaintext := parameter "plaintext" (Value VNone) kwargs in
  let digestMethod := parameter "digestMethod" (Class "SHA512") kwargs in
  hashAlgo <- lift (check_digest_method digestMethod) ;;
  res <- requests_get (WEBSITE_URL ++ "/api/v1/rsa/public-key") ;;
  (if negb (status_code res =? 200)
   then raise (OtherException "Server Response")
   else ret tt) ;;
  res <- res_json res ;;
  valid <- validate_schema SERVER_PUBLIC_KEY_SCHEMA res ;;
  (if valid is None
   then raise (OtherException "Invalid json response from Cultured Downloader website")
   else ret tt) ;;
  public_key <- lift (py_getitem res "public_key") ;;
  data <-
    match public_key with
    | JStr pem => ret (str_encode pem)
    | _ => raise (OtherException "AttributeError: encode")
    end ;;
  publicKey <- lift (load_pem_public_key data) ;;
  let plaintext :=
    match plaintext with
    | Value (VStr text) => Value (VBytes (str_encode text))
    | _ => plaintext
    end in
  plaintext <- lift (bytes_argument plaintext) ;;
  draw <- fresh ;;
  lift (oaep_encrypt publicKey plaintext hashAlgo draw).

(** [rsa_decrypt(ciphertext, privateKey, digestMethod=hashes.SHA512,
    decode=False)], called with the keywords [kwargs]. *)
Definition rsa_decrypt (kwargs : keywords) : M pyvalue :=
  lift (bind_keywords "rsa_decrypt"
          ["ciphertext"; "privateKey"; "digestMethod"; "decode"]
          ["ciphertext"; "privateKey"] kwargs) ;;
  let ciphertext := parameter "ciphertext" (Value VNone) kwargs in
  let privateKey := parameter "privateKey" (Value VNone) kwargs in
  let digestMethod := parameter "digestMethod" (Class "SHA512") kwargs in
  let decode := parameter "decode" (Value (VJson (JBool false))) kwargs in
  hashAlgo <- lift (check_digest_method digestMethod) ;;
  privateKey <-
    match privateKey with
    | Value (VStr pem) => lift (load_pem_private_key (str_encode pem))
    | KeyObject key => ret key
    | _ => raise (TypeError "privateKey must be an instance of cryptography.hazmat.primitives.asymmetric.types.PRIVATE_KEY_TYPES")
    end ;;
  ciphertext <- lift (bytes_argument ciphertext) ;;
  plaintext <- lift (oaep_decrypt privateKey ciphertext hashAlgo) ;;
  if truth decode then
    text <- lift (bytes_decode plaintext) ;; ret (VStr text)
  else ret (VBytes plaintext).

End CryptographyOperations.
End CryptographyOperations.
Export CryptographyOperations.

(** ** [utils/user_data.py]: the class [UserData] *)

Module UserDataClass.
Section UserDataClass.
Context `{C : Constants} `{L : Library}.

(** The concrete subclasses; [SecureCookie] carries the website it is
    built for. *)
Inductive secure_class :=
| SecureCookie (website : string)
| SecureGDriveAPIKey
| SecurePixivRefreshToken
| SecureDanbooruAuth.

Record UserData := {
  cls : secure_class;
  private_key : string;
  public_key : string;
  client_digest_method : json;
  server_digest_method : string;
  data_path : path;
  secret_key : list byte;
  data : pyvalue
}.

Definition with_secret_key (self : UserData) (k : list byte) : UserData :=
  {| cls := cls self; private_key := private_key self;
     public_key := public_key self;
     client_digest_method := client_digest_method self;
     server_digest_method := server_digest_method self;
     data_path := data_path self; secret_key := k; data := data self |}.

Definition with_data (self : UserData) (d : pyvalue) : UserData :=
  {| cls := cls self; private_key := private_key self;
     public_key := public_key self;
     client_digest_method := client_digest_method self;
     server_digest_method := server_digest_method self;
     data_path := data_path self; secret_key := secret_key self; data := d |}.

Definition status_in (status : Z) (accepted : list Z) : bool :=
  existsb (Z.eqb status) accepted.

(** [base64.b64decode(s)] on an object of the response *)
Definition b64decode_obj (s : json) : outcome (list byte) :=
  match s with
  | JStr s =>
      match b64decode s with
      | inr b => Ok b
      | inl IncorrectPadding => Raise BinasciiError
      | inl NonAscii => Raise (ValueError "string argument should contain only ASCII characters")
      end
  | _ => Raise (TypeError "argument should be a bytes-like object or ASCII string")
  end.

Definition load_client_digest_method : M json :=
  configs <- load_configs ;;
  match get_attr configs "client_digest_method" with
  | JNull =>
      let method := JStr (if IS_64BITS then "sha512" else "sha256") in
      edit_configs (set_attr configs "client_digest_method" method) ;;
      ret method
  | method => ret method
  end.

(** The directory of a vault file is taken to exist:
    [data_path.parent.mkdir(parents=True, exist_ok=True)] changes
    nothing. *)
Definition mkdir_parent (p : path) : M unit := ret tt.

Definition encrypt_data (self : UserData) (data_arg : pyvalue) : M unit :=
  mkdir_parent (data_path self) ;;
  let data := if is_None data_arg then data self else data_arg in
  draw <- fresh ;;
  '(encrypted_data, nonce) <- lift (chacha_encrypt data (secret_key self) draw) ;;
  let encoded_data := b64encode encrypted_data in
  let nonce := b64encode nonce in
  encoded_text <- lift (bytes_decode encoded_data) ;;
  nonce_text <- lift (bytes_decode nonce) ;;
  write_text (data_path self) (join2 "." encoded_text nonce_text).

(** The unpacking [encrypted_data, nonce = fields] *)
Definition unpack2 (fields : list string) : outcome (string * string) :=
  match fields with
  | [a; b] => Ok (a, b)
  | _ => Raise (ValueError "wrong number of values to unpack")
  end.

Definition b64decode_text (s : string) : outcome (list byte) :=
  b64decode_obj (JStr s).

(** [decrypt_data(decode, schema, regex)]. Each [except] clause that
    unlinks the file and returns is a handler yielding [None]; the code
    after it runs on [Some]. *)
Definition decrypt_data (self : UserData) (decode : bool)
    (schema : option BaseModel) (regex : option Pattern) : M pyvalue :=
  if given schema && given regex then
    raise (ValueError "Cannot validate against both schema and regex at the same time")
  else
  decode <-
    (if negb decode && (given schema || given regex)
     then emit (Warned "decode will be set to True") ;; ret true
     else ret decode) ;;
  present <- is_file (data_path self) ;;
  if negb present then ret VNone else
  encrypted_data_with_nonce <- read_text (data_path self) ;;
  fields <-
    try_except
      (p <- lift (unpack2 (split "." encrypted_data_with_nonce)) ;; ret (Some p))
      is_ValueError
      (fun _ => unlink (data_path self) ;; ret None) ;;
  match fields with
  | None => ret VNone
  | Some (encrypted_data, nonce) =>
  decoded <-
    try_except
      (encrypted_data <- lift (b64decode_text encrypted_data) ;;
       nonce <- lift (b64decode_text nonce) ;;
       ret (Some (encrypted_data, nonce)))
      (fun e => is_ValueError e || is_TypeError e)
      (fun _ => unlink (data_path self) ;; ret None) ;;
  match decoded with
  | None => ret VNone
  | Some (encrypted_data, nonce) =>
  decrypted <-
    try_except
      (d <- lift (chacha_decrypt encrypted_data (secret_key self) nonce) ;;
       ret (Some d))
      (fun e => is_InvalidTag e || is_ValueError e)
      (fun _ => unlink (data_path self) ;; ret None) ;;
  match decrypted with
  | None => ret VNone
  | Some decrypted_bytes =>
  decrypted_data <-
    (if decode : bool then
       s <- lift (bytes_decode decrypted_bytes) ;; ret (VStr s)
     else ret (VBytes decrypted_bytes)) ;;
  matched <-
    match regex with
    | Some pattern =>
        match decrypted_data with
        | VStr s => ret (pattern s)
        | _ => raise (TypeError "cannot use a string pattern on this object")
        end
    | None => ret true
    end ;;
  if negb matched then unlink (data_path self) ;; ret VNone else
  match schema with
  | None => ret decrypted_data
  | Some model =>
      parsed <-
        match decrypted_data with
        | VStr s => ret (json_loads s)
        | _ => raise (TypeError "the JSON object must be str")
        end ;;
      match parsed with
      | None => unlink (data_path self) ;; ret VNone
      | Some j =>
          valid <- validate_schema model j ;;
          match valid with
          | None => unlink (data_path self) ;; ret VNone
          | Some _ => ret (VJson j)
          end
      end
  end
  end end end.

Definition prepare_data_for_transmission (self : UserData) (data : pyvalue)
  : M string :=
  wrapped <-
    rsa_encrypt
      [ ("plaintext", Value data);
        ("digest_method", Value (VStr (server_digest_method self))) ] ;;
  lift (bytes_decode (b64encode wrapped)).

Definition format_private_key (self : UserData) : M rsa_private_key :=
  lift (load_pem_private_key (str_encode (private_key self))).

Definition read_api_response (self : UserData) (received_data : json)
  : M pyvalue :=
  ciphertext <- lift (b64decode_obj received_data) ;;
  key <- format_private_key self ;;
  rsa_decrypt
    [ ("ciphertext", Value (VBytes ciphertext));
      ("private_key", KeyObject key);
      ("digest_method", Value (VJson (client_digest_method self))) ].

Definition get_csrf_token : M (json * list (string * string)) :=
  res <-
    try_except (client_send "GET" (API_URL ++ "/csrf-token") [] JNull)
      is_httpx_transient
      (fun e => emit (LoggedHttpxError e) ;; raise e) ;;
  (if negb (status_in (status_code res) [200; 404])
   then log_api_error (BadStatus (status_code res) (text res))
   else ret tt) ;;
  let cookies := cookies res in
  json_data <- res_json res ;;
  has_error <- lift (py_contains "error" json_data) ;;
  (if has_error : bool then
     e <- lift (py_getitem json_data "error") ;; log_api_error (ErrorField e)
   else ret tt) ;;
  valid <- validate_schema APICsrfResponse json_data ;;
  (if valid is None then log_api_error InvalidFormat else ret tt) ;;
  csrf_token <- lift (py_getitem json_data "csrf_token") ;;
  ret (csrf_token, cookies).

(** [json.load(f)] of the token document, with its
    [except (json.JSONDecodeError, TypeError)] giving [None]; then the
    [KeyIdToken] model and its field. *)
Definition read_key_id_token : M (option string) :=
  content <- read_text KEY_ID_TOKEN_JSON_PATH ;;
  match json_loads content with
  | None | Some JNull => ret None
  | Some key_id_token_json =>
      key_id_token_obj <- validate_schema KeyIdToken key_id_token_json ;;
      match key_id_token_obj with
      | Some obj =>
          match get_attr obj "key_id_token" with
          | JStr token => ret (Some token)
          | _ => ret None
          end
      | None => ret None
      end
  end.

Definition new_chacha20_key : M (list byte) :=
  draw <- fresh ;; ret (generate_chacha20_key draw).

Definition as_bytes (v : pyvalue) : M (list byte) :=
  match v with
  | VBytes b => ret b
  | VJson _ => raise (TypeError "a bytes-like object is required")
  end.

(** [UserData.__load_key], from the token document on: the part reached
    when there is no local key file of 32 bytes. *)
Definition load_key_from_token (self : UserData) : M (list byte) :=
  has_token_file <- is_file KEY_ID_TOKEN_JSON_PATH ;;
  key_id_token <-
    (if has_token_file : bool then read_key_id_token else ret None) ;;
  match key_id_token with
  | None => new_chacha20_key
  | Some key_id_token =>
  '(csrf_token, cookies) <- get_csrf_token ;;
  wrapped <- prepare_data_for_transmission self (VStr key_id_token) ;;
  let json_data :=
    JObj [ ("csrf_token", csrf_token);
           ("server_digest_method", JStr (server_digest_method self));
           ("client_public_key", JStr (public_key self));
           ("client_digest_method", client_digest_method self);
           ("key_id_token", JStr wrapped) ] in
  res <-
    try_except (client_send "POST" (API_URL ++ "/get-key") cookies json_data)
      is_httpx_transient
      (fun e => emit (LoggedHttpxError e) ;; raise e) ;;
  (if negb (status_in (status_code res) [200; 404; 400])
   then log_api_error (BadStatus (status_code res) (text res))
   else ret tt) ;;
  if status_code res =? 404 then
    unlink KEY_ID_TOKEN_JSON_PATH ;; new_chacha20_key
  else
  json_data <- res_json res ;;
  has_error <- lift (py_contains "error" json_data) ;;
  (if has_error : bool then
     e <- lift (py_getitem json_data "error") ;; log_api_error (ErrorField e)
   else ret tt) ;;
  valid <- validate_schema APIKeyResponse json_data ;;
  (if valid is None then log_api_error InvalidFormat else ret tt) ;;
  wrapped_key <- lift (py_getitem json_data "secret_key") ;;
  secret_key <- read_api_response self wrapped_key ;;
  as_bytes secret_key
  end.

(** [UserData.__load_key] *)
Definition load_key (self : UserData) : M (list byte) :=
  has_key_file <- is_file SECRET_KEY_PATH ;;
  resident <-
    (if has_key_file : bool then
       secret_key <- read_bytes SECRET_KEY_PATH ;;
       ret (if (length secret_key =? 32)%nat then Some secret_key else None)
     else ret None) ;;
  match resident with
  | Some secret_key => ret secret_key
  | None => load_key_from_token self
  end.

(** [UserData.save_key(save_locally)] *)
Definition save_key (self : UserData) (save_locally : bool) : M unit :=
  has_key_file <- is_file SECRET_KEY_PATH ;;
  already_local <-
    (if has_key_file : bool then
       content <- read_bytes SECRET_KEY_PATH ;;
       ret (bool_decide (content = secret_key self))
     else ret false) ;;
  if already_local : bool then ret tt else
  has_token_file <- is_file KEY_ID_TOKEN_JSON_PATH ;;
  if has_token_file : bool then ret tt else
  if save_locally then write_bytes SECRET_KEY_PATH (secret_key self) else
  '(csrf_token, cookies) <- get_csrf_token ;;
  wrapped <- prepare_data_for_transmission self (VBytes (secret_key self)) ;;
  let json_data :=
    JObj [ ("csrf_token", csrf_token);
           ("server_digest_method", JStr (server_digest_method self));
           ("client_public_key", JStr (public_key self));
           ("client_digest_method", client_digest_method self);
           ("secret_key", JStr wrapped) ] in
  res <-
    try_except (client_send "POST" (API_URL ++ "/save-key") cookies json_data)
      is_httpx_transient
      (fun e => emit (LoggedHttpxError e) ;; raise e) ;;
  (if negb (status_in (status_code res) [200; 400])
   then log_api_error (BadStatus (status_code res) (text res))
   else ret tt) ;;
  res <- res_json res ;;
  has_error <- lift (py_contains "error" res) ;;
  (if has_error : bool then
     e <- lift (py_getitem res "error") ;; log_api_error (ErrorField e)
   else ret tt) ;;
  valid <- validate_schema APIKeyIDResponse res ;;
  (if valid is None then log_api_error InvalidFormat else ret tt) ;;
  wrapped_token <- lift (py_getitem res "key_id_token") ;;
  ciphertext <- lift (b64decode_obj wrapped_token) ;;
  key <- format_private_key self ;;
  key_id_token <-
    rsa_decrypt
      [ ("ciphertext", Value (VBytes ciphertext));
        ("private_key", KeyObject key);
        ("digest_method", Value (VJson (client_digest_method self)));
        ("decode", Value (VJson (JBool true))) ] ;;
  match key_id_token with
  | VJson token =>
      write_text KEY_ID_TOKEN_JSON_PATH
        (json_dumps (Some 4) (JObj [("key_id_token", token)]))
  | VBytes _ => raise (TypeError "Object of type bytes is not JSON serializable")
  end.

Definition convert_website_to_path (website : string) : outcome path :=
  if String.eqb website "fantia" then Ok FANTIA_COOKIE_PATH
  else if String.eqb website "pixiv_fanbox" then Ok PIXIV_FANBOX_COOKIE_PATH
  else Raise (ValueError "Invalid website").

(** The [load_data] method of each subclass *)
Definition load_data_method (self : UserData) : M pyvalue :=
  match cls self with
  | SecureCookie _ => decrypt_data self true (Some CookieSchema) None
  | SecureGDriveAPIKey => decrypt_data self true None (Some GOOGLE_API_KEY_REGEX)
  | SecurePixivRefreshToken =>
      decrypt_data self true None (Some PIXIV_REFRESH_TOKEN_REGEX)
  | SecureDanbooruAuth => decrypt_data self true (Some DanbooruAuthSchema) None
  end.

(** [json.dumps(self.data)] *)
Definition dumps_data (v : pyvalue) : M pyvalue :=
  match v with
  | VJson j => ret (VStr (json_dumps None j))
  | VBytes _ => raise (TypeError "Object of type bytes is not JSON serializable")
  end.

(** The [save_data] method of each subclass *)
Definition save_data_method (self : UserData) : M unit :=
  match cls self with
  | SecureCookie _ | SecureDanbooruAuth =>
      text <- dumps_data (data self) ;; encrypt_data self text
  | SecureGDriveAPIKey | SecurePixivRefreshToken =>
      encrypt_data self (data self)
  end.

(** [UserData.__init__(data_path, data)], called by the subclass [c]. *)
Definition UserData_init (c : secure_class) (data_path : path)
    (data : pyvalue) : M UserData :=
  key_pair <- generate_rsa_key_pair ;;
  private_key <- lift (bytes_decode (fst key_pair)) ;;
  public_key <- lift (bytes_decode (snd key_pair)) ;;
  client_digest_method <- load_client_digest_method ;;
  let server_digest_method :=
    if is_the_str client_digest_method "sha512"
    then "sha512"%string else "sha256"%string in
  let self :=
    {| cls := c; private_key := private_key; public_key := public_key;
       client_digest_method := client_digest_method;
       server_digest_method := server_digest_method;
       data_path := data_path; secret_key := []; data := VNone |} in
  secret_key <- load_key self ;;
  let self := with_secret_key self secret_key in
  if is_None data then
    loaded <- load_data_method self ;; ret (with_data self loaded)
  else ret (with_data self data).

Definition is_dict (v : pyvalue) : bool :=
  match v with VJson (JObj _) => true | _ => false end.

Definition is_str (v : pyvalue) : bool :=
  match v with VStr _ => true | _ => false end.

(** Calling the class: [SecureCookie(website, cookie_data)],
    [SecureGDriveAPIKey(api_key)], ... *)
Definition construct (c : secure_class) (data : pyvalue) : M UserData :=
  match c with
  | SecureCookie website =>
      if negb (is_None data) && negb (is_dict data)
      then raise (TypeError "cookie_data must be of type dict or None")
      else
        data_path <- lift (convert_website_to_path website) ;;
        UserData_init c data_path data
  | SecureGDriveAPIKey =>
      if negb (is_None data) && negb (is_str data)
      then raise (TypeError "api_key must be of type str or None")
      else UserData_init c GDRIVE_API_KEY_PATH data
  | SecurePixivRefreshToken =>
      if negb (is_None data) && negb (is_str data)
      then raise (TypeError "api_key must be of type str or None")
      else UserData_init c PIXIV_REFRESH_TOKEN_PATH data
  | SecureDanbooruAuth => UserData_init c DANBOORU_AUTH_PATH data
  end.

End UserDataClass.
End UserDataClass.
Export UserDataClass.

(** ** [utils/user_data.py]: retries, saving and loading, worker threads *)

Module UserDataModule.
Section UserDataModule.
Context `{C : Constants} `{L : Library}.

(** The exceptions of the [except] clause of both retry loops:
    [APIServerError], [httpx.ConnectError], [httpx.ReadTimeout],
    [httpx.ConnectTimeout], [json.JSONDecodeError]. *)
Definition caught_by_retry (e : exn) : bool :=
  is_APIServerError e || is_httpx_transient e || is_JSONDecodeError e.

(** [time.sleep(delay)] *)
Definition sleep (delay : Z) : M unit := emit (Slept delay).

(** The [for retry_counter in ...] loop of [save_key_with_retries], over
    the counters still to come; a loop that ends without [return] gives
    [None]. *)
Fixpoint save_key_loop (counters : list nat) (obj : UserData)
    (save_key_locally : bool) : M (option bool) :=
  match counters with
  | [] => ret None
  | retry_counter :: counters' =>
      try_except
        (save_key obj save_key_locally ;; ret (Some true))
        caught_by_retry
        (fun _ =>
           if (retry_counter =? MAX_RETRIES)%nat then ret (Some false)
           else sleep RETRY_DELAY ;;
                save_key_loop counters' obj save_key_locally)
  end.

Definition save_key_with_retries (obj : UserData) (save_key_locally : bool)
  : M (option bool) :=
  save_key_loop (seq 1 MAX_RETRIES) obj save_key_locally.

Fixpoint load_key_loop (counters : list nat) (obj : secure_class)
    (data : pyvalue) : M (option UserData) :=
  match counters with
  | [] => ret None
  | retry_counter :: counters' =>
      try_except
        (o <- construct obj data ;; ret (Some o))
        caught_by_retry
        (fun _ =>
           if (retry_counter =? MAX_RETRIES)%nat then ret None
           else sleep RETRY_DELAY ;; load_key_loop counters' obj data)
  end.

Definition load_key_with_retries (obj : secure_class) (data : pyvalue)
  : M (option UserData) :=
  load_key_loop (seq 1 MAX_RETRIES) obj data.

(** [if x:] on what [save_key_with_retries] returns *)
Definition truthy (r : option bool) : bool :=
  match r with Some true => true | _ => false end.

Definition save_data (obj : secure_class) (save_key_locally : bool)
    (data : pyvalue) : M bool :=
  secure_obj <- load_key_with_retries obj data ;;
  match secure_obj with
  | None => ret false
  | Some secure_obj =>
      saved <- save_key_with_retries secure_obj save_key_locally ;;
      if truthy saved then save_data_method secure_obj ;; ret true
      else ret false
  end.

Definition load_data (obj : secure_class) : M pyvalue :=
  secure_obj <- load_key_with_retries obj VNone ;;
  match secure_obj with
  | None => ret VNone
  | Some secure_obj => ret (data secure_obj)
  end.

(** *** Threads *)

Inductive task :=
| SaveCookie (cookie : pyvalue) (website : string) (save_locally : bool)
| LoadCookie (website : string).

Definition task_website (t : task) : string :=
  match t with
  | SaveCookie _ website _ => website
  | LoadCookie website => website
  end.

(** A [SaveCookieThread] or [LoadCookieThread]: the attributes of
    [BaseThread] and of the subclass. *)
Record thread := {
  work : task;
  readable_website : string;
  exec : option exn;
  result : pyvalue
}.

(** The constructors of the two thread classes *)
Definition new_thread (t : task) : outcome thread :=
  match website_to_readable_format (task_website t) with
  | Ok readable =>
      Ok {| work := t; readable_website := readable; exec := None;
            result := VNone |}
  | Raise e => Raise e
  end.

Definition set_result (t : thread) (r : pyvalue) : thread :=
  {| work := work t; readable_website := readable_website t;
     exec := exec t; result := r |}.

Definition set_exec (t : thread) (e : exn) : thread :=
  {| work := work t; readable_website := readable_website t;
     exec := Some e; result := result t |}.

(** The call inside the [try] block of [run] *)
Definition target (t : task) : M pyvalue :=
  match t with
  | SaveCookie cookie website save_locally =>
      r <- save_data (SecureCookie website) save_locally cookie ;;
      ret (VJson (JBool r))
  | LoadCookie website => load_data (SecureCookie website)
  end.

(** [run]: the body of the thread, in the world it meets; every
    [Exception] is caught and kept in [exec]. *)
Definition run (t : thread) : world -> thread * world :=
  fun w =>
    match target (work t) w with
    | (Ok r, w') => (set_result t r, w')
    | (Raise e, w') => (set_exec t e, w')
    end.

(** [BaseThread.join]: [super().join()] returns once the thread has
    finished, then the kept exception is raised. The argument is the
    thread as it is once finished; the log keeps which threads were
    waited for. *)
Definition join (t : thread) : M unit :=
  emit (Joined (task_website (work t))) ;;
  match exec t with
  | Some e => raise e
  | None => ret tt
  end.

Fixpoint for_each {A} (f : A -> M unit) (l : list A) : M unit :=
  match l with
  | [] => ret tt
  | a :: l' => f a ;; for_each f l'
  end.

(** [if not thread.result] *)
Definition falsy (v : pyvalue) : bool :=
  match v with
  | VNone | VJson (JBool false) | VJson (JNum 0) | VStr EmptyString
  | VJson (JArr []) | VJson (JObj []) | VBytes [] => true
  | _ => false
  end.

Definition report (t : thread) : M unit :=
  if falsy (result t) then emit (PrintedDanger (readable_website t))
  else emit (PrintedSuccess (readable_website t)).

Section Managers.
(** The threads run on their own once started: [finished t] is the
    thread [t] as it is when its [run] has ended. *)
Variable finished : thread -> thread.

(** The first loop of [save_cookies]: an entry that is not a tuple of
    three is [None] and is skipped. *)
Fixpoint start_save_threads
    (login_results : list (option (pyvalue * string * bool)))
  : M (list thread) :=
  match login_results with
  | [] => ret []
  | None :: rest => start_save_threads rest
  | Some (cookie, website, save_locally) :: rest =>
      thread_task <- lift (new_thread (SaveCookie cookie website save_locally)) ;;
      threads_arr <- start_save_threads rest ;;
      ret (thread_task :: threads_arr)
  end.

Definition save_cookies
    (login_results : list (option (pyvalue * string * bool))) : M unit :=
  threads_arr <- start_save_threads login_results ;;
  for_each join (map finished threads_arr) ;;
  for_each report (map finished threads_arr).

Fixpoint start_load_threads (websites : list string) : M (list thread) :=
  match websites with
  | [] => ret []
  | website :: rest =>
      cookie_path <- lift (convert_website_to_path website) ;;
      present <- is_file cookie_path ;;
      if present : bool then
        thread <- lift (new_thread (LoadCookie website)) ;;
        threads_arr <- start_load_threads rest ;;
        ret (thread :: threads_arr)
      else start_load_threads rest
  end.

Definition load_cookies (websites : list string) : M (list thread) :=
  threads_arr <- start_load_threads websites ;;
  for_each join (map finished threads_arr) ;;
  ret (map finished threads_arr).
End Managers.

End UserDataModule.
End UserDataModule.
Export UserDataModule.

(** ** Contracts of the primitives *)

Module Contracts.

(** Modelled from the spec: the ChaCha20-Poly1305 helpers are not among
    the sources. Their contract (VaultCipher: [encrypt(plaintext, key) ->
    (ciphertext, nonce)], [decrypt(ciphertext, key, nonce) -> plaintext])
    is that, under a 32-byte key, encryption of a byte string succeeds and
    decryption of what it returns gives the byte string back. *)
Definition cipher_round_trip `{L : Library} : Prop :=
  forall (p key : list byte) (draw : nat),
    length key = 32%nat ->
    exists ciphertext nonce,
      chacha_encrypt (VBytes p) key draw = Ok (ciphertext, nonce) /\
      chacha_decrypt ciphertext key nonce = Ok p.

(** The ways the content of an existing data file is corrupt for
    [decrypt_data]: no envelope of two fields around one dot; a field that
    is not Base64; a ciphertext the cipher refuses ([InvalidTag], or a
    [ValueError]); a plaintext the regex does not match; a plaintext that
    is not JSON, or that [validate_schema] finds invalid for the schema. *)
Inductive corrupt `{L : Library} (self : UserData)
    (schema : option BaseModel) (regex : option Pattern) (content : string)
  : Prop :=
| malformed_envelope :
    (forall a b, split "." content <> [a; b]) ->
    corrupt self schema regex content
| undecodable_field (a b : string) (e : exn) :
    split "." content = [a; b] ->
    b64decode_text a = Raise e \/
    (exists ciphertext, b64decode_text a = Ok ciphertext /\
                        b64decode_text b = Raise e) ->
    corrupt self schema regex content
| authentication_failure (a b : string) (ciphertext nonce : list byte)
    (e : exn) :
    split "." content = [a; b] ->
    b64decode_text a = Ok ciphertext ->
    b64decode_text b = Ok nonce ->
    chacha_decrypt ciphertext (secret_key self) nonce = Raise e ->
    is_InvalidTag e || is_ValueError e = true ->
    corrupt self schema regex content
| regex_mismatch (a b : string) (ciphertext nonce plaintext : list byte)
    (s : string) (pattern : Pattern) :
    split "." content = [a; b] ->
    b64decode_text a = Ok ciphertext ->
    b64decode_text b = Ok nonce ->
    chacha_decrypt ciphertext (secret_key self) nonce = Ok plaintext ->
    bytes_decode plaintext = Ok s ->
    regex = Some pattern ->
    pattern s = false ->
    corrupt self schema regex content
| schema_failure (a b : string) (ciphertext nonce plaintext : list byte)
    (s : string) (model : BaseModel) :
    split "." content = [a; b] ->
    b64decode_text a = Ok ciphertext ->
    b64decode_text b = Ok nonce ->
    chacha_decrypt ciphertext (secret_key self) nonce = Ok plaintext ->
    bytes_decode plaintext = Ok s ->
    schema = Some model ->
    match json_loads s with
    | None => True
    | Some j => schema_refuses model j = true
    end ->
    corrupt self schema regex content.

(** The content of a data file that [decrypt_data] takes as valid, with
    the payload it holds: an envelope of two Base64 fields whose ciphertext
    decrypts under the key of the object, to bytes when nothing is decoded,
    to a text that the regex (if there is one) matches, or to a JSON
    document that is valid for the schema. *)
Inductive intact `{L : Library} (self : UserData) (decode : bool)
    (schema : option BaseModel) (regex : option Pattern) (content : string)
  : pyvalue -> Prop :=
| intact_bytes (a b : string) (ciphertext nonce plaintext : list byte) :
    split "." content = [a; b] ->
    b64decode_text a = Ok ciphertext ->
    b64decode_text b = Ok nonce ->
    chacha_decrypt ciphertext (secret_key self) nonce = Ok plaintext ->
    decode = false -> schema = None -> regex = None ->
    intact self decode schema regex content (VBytes plaintext)
| intact_text (a b : string) (ciphertext nonce plaintext : list byte)
    (s : string) :
    split "." content = [a; b] ->
    b64decode_text a = Ok ciphertext ->
    b64decode_text b = Ok nonce ->
    chacha_decrypt ciphertext (secret_key self) nonce = Ok plaintext ->
    bytes_decode plaintext = Ok s ->
    schema = None ->
    match regex with
    | Some pattern => pattern s = true
    | None => decode = true
    end ->
    intact self decode schema regex content (VStr s)
| intact_json (a b : string) (ciphertext nonce plaintext : list byte)
    (s : string) (model : BaseModel) (j : json) :
    split "." content = [a; b] ->
    b64decode_text a = Ok ciphertext ->
    b64decode_text b = Ok nonce ->
    chacha_decrypt ciphertext (secret_key self) nonce = Ok plaintext ->
    bytes_decode plaintext = Ok s ->
    schema = Some model -> regex = None ->
    json_loads s = Some j ->
    schema_accepts model j = true ->
    intact self decode schema regex content (VJson j).

(** A computation whose outcome, and whose effect on the files, depend on
    the files alone (not on the log, the network script or the entropy). *)
Definition fs_determined {A} (m : M A) : Prop :=
  forall w w', fs w = fs w' ->
    fst (m w) = fst (m w') /\ fs (snd (m w)) = fs (snd (m w')).

(** A computation that changes no path outside [P]. *)
Definition touches_only (P : path -> Prop) {A} (m : M A) : Prop :=
  forall w p, ~ P p -> fs (snd (m w)) !! p = fs w !! p.

(** A computation that neither reads nor changes the path [p]: with
    anything put at [p] it ends the same way, with that still at [p]. *)
Definition ignores (p : path) {A} (m : M A) : Prop :=
  forall w n,
    m (set_fs (insert p n) w)
    = (fst (m w), set_fs (insert p n) (snd (m w))).

(** A computation every run of which takes the world to one related to it
    by [R]. *)
Definition effect (R : world -> world -> Prop) {A} (m : M A) : Prop :=
  forall w, R w (snd (m w)).

(** A class of changes of the world: a preorder [changes] that holds of
    logging an event in [logs], of deleting a path in [deletes], of writing
    a path in [writes], and of any move of the network script and of the
    entropy counter. *)
Class Changes := {
  changes : world -> world -> Prop;
  logs : event -> Prop;
  deletes : path -> Prop;
  writes : path -> Prop;
  changes_refl : forall w, changes w w;
  changes_trans : forall w1 w2 w3,
    changes w1 w2 -> changes w2 w3 -> changes w1 w3;
  changes_log : forall w e, logs e -> changes w (add_log e w);
  changes_net : forall w n, changes w (set_net n w);
  changes_seed : forall w, changes w (next_seed w);
  changes_delete : forall w p, deletes p -> changes w (set_fs (delete p) w);
  changes_write : forall w p n,
    writes p -> changes w (set_fs (insert p n) w)
}.

Definition is_key_generation (e : event) : bool :=
  match e with GeneratedRSAKey _ _ => true | _ => false end.

(** How many RSA keys the log says were generated *)
Definition generated_keys (l : list event) : nat :=
  length (List.filter is_key_generation l).

(** What [UserData.__init__] does once the key pair is generated: its
    statements after the first. *)
Definition after_key_generation `{C : Constants} `{L : Library}
    (c : secure_class) (data_path : path)
    (data : pyvalue) (key_pair : list byte * list byte) : M UserData :=
  private_key <- lift (bytes_decode (fst key_pair)) ;;
  public_key <- lift (bytes_decode (snd key_pair)) ;;
  client_digest_method <- load_client_digest_method ;;
  let server_digest_method :=
    if is_the_str client_digest_method "sha512"
    then "sha512"%string else "sha256"%string in
  let self :=
    {| cls := c; private_key := private_key; public_key := public_key;
       client_digest_method := client_digest_method;
       server_digest_method := server_digest_method;
       data_path := data_path; secret_key := []; data := VNone |} in
  secret_key <- load_key self ;;
  let self := with_secret_key self secret_key in
  if is_None data then
    loaded <- load_data_method self ;; ret (with_data self loaded)
  else ret (with_data self data).

(** Both keys of the pair are encoded as text, as PEM is. *)
Definition pem_is_text (key_pair : list byte * list byte) : bool :=
  utf8_valid (fst key_pair) && utf8_valid (snd key_pair).

(** The object [self] as it is with another key pair in its fields. *)
Definition with_key_pair `{C : Constants} `{L : Library} (self : UserData)
    (private public : string) : UserData :=
  {| cls := cls self; private_key := private; public_key := public;
     client_digest_method := client_digest_method self;
     server_digest_method := server_digest_method self;
     data_path := data_path self; secret_key := secret_key self;
     data := data self |}.

(** The world with more lines in its log *)
Definition add_logs (lines : list event) (w : world) : world :=
  {| fs := fs w; net := net w; seed := seed w; log := log w ++ lines |}.

(** The log line of a thread that was waited for *)
Definition joined_line `{C : Constants} `{L : Library} (t : thread) : event :=
  Joined (task_website (work t)).

(** The line [save_cookies] prints for a finished thread *)
Definition report_line `{C : Constants} `{L : Library} (t : thread) : event :=
  if falsy (result t) then PrintedDanger (readable_website t)
  else PrintedSuccess (readable_website t).

(** A run of attempts under a budget of [budget] attempts with the pause
    [delay] between two attempts: [errors] are the exceptions that were
    caught and followed by another attempt, [final] is the outcome of the
    last attempt made. An attempt is repeated only after an exception that
    [caught] accepts, and only while the budget lasts. *)
Inductive retried_run {A} (attempt : M A) (caught : exn -> bool) (delay : Z)
  : nat -> world -> list exn -> outcome A -> world -> Prop :=
| run_done budget w a w1 :
    attempt w = (Ok a, w1) ->
    retried_run attempt caught delay (S budget) w [] (Ok a) w1
| run_fatal budget w e w1 :
    attempt w = (Raise e, w1) ->
    caught e = false ->
    retried_run attempt caught delay (S budget) w [] (Raise e) w1
| run_exhausted w e w1 :
    attempt w = (Raise e, w1) ->
    caught e = true ->
    retried_run attempt caught delay 1 w [] (Raise e) w1
| run_retry budget w e w1 errors final w2 :
    attempt w = (Raise e, w1) ->
    caught e = true ->
    retried_run attempt caught delay (S budget)
      (add_log (Slept delay) w1) errors final w2 ->
    retried_run attempt caught delay (S (S budget)) w (e :: errors) final w2.

(** What a retry wrapper returns after the last attempt: the value for a
    success, [exhausted] for a caught exception, the exception otherwise. *)
Definition after_retries {A B} (caught : exn -> bool) (success : A -> B)
    (exhausted : B) (final : outcome A) : outcome B :=
  match final with
  | Ok a => Ok (success a)
  | Raise e => if caught e then Ok exhausted else Raise e
  end.

End Contracts.
Export Contracts.

(** ** A small instance of the primitives, to run the model on examples *)

Module Demo.

Definition demo_constants : Constants :=
  {| MAX_RETRIES := 3;
     RETRY_DELAY := 1;
     API_URL := "https://api.example";
     IS_64BITS := true;
     GOOGLE_API_KEY_REGEX := fun s => is_prefix "AIza" s;
     PIXIV_REFRESH_TOKEN_REGEX := fun s => (String.length s =? 43)%nat;
     DESKTOP_DOWNLOAD_DIRECTORY := "/home/user/Desktop/cultured-downloader";
     WEBSITE_URL := "https://website.example";
     SERVER_PUBLIC_KEY_SCHEMA := one_str_field "ServerPublicKey" "public_key" |}.

(** The documents the examples exchange, each with the text standing for
    it. *)
Definition documents : list (string * json) :=
  [ ("null", JNull);
    ("{}", JObj []);
    ("{csrf_token: t0}", JObj [("csrf_token", JStr "t0")]);
    ("{error: denied}", JObj [("error", JStr "denied")]);
    ("{key_id_token: a2lk}", JObj [("key_id_token", JStr "a2lk")]);
    ("{key_id_token: kid}", JObj [("key_id_token", JStr "kid")]);
    ("{secret_key: MDEyMzQ1Njc4OWFiY2RlZjAxMjM0NTY3ODlhYmNkZWY=}",
       JObj [("secret_key",
              JStr "MDEyMzQ1Njc4OWFiY2RlZjAxMjM0NTY3ODlhYmNkZWY=")]);
    ("{session: abc123}", JObj [("session", JStr "abc123")]);
    ("{download_directory: /home/user/Desktop/cultured-downloader, client_digest_method: sha512}",
       JObj [("download_directory",
              JStr "/home/user/Desktop/cultured-downloader");
             ("client_digest_method", JStr "sha512")]);
    ("7", JNum 7) ].

Fixpoint lookup_document (s : string) (docs : list (string * json))
  : option json :=
  match docs with
  | [] => None
  | (t, j) :: rest => if String.eqb s t then Some j else lookup_document s rest
  end.

Definition demo_json_loads (s : string) : option json :=
  lookup_document s documents.

Fixpoint demo_dumps (j : json) : string :=
  match j with
  | JNull => "null"
  | JBool true => "true"
  | JBool false => "false"
  | JNum z => if (z =? 7)%Z then "7" else "0"
  | JStr s => s
  | JArr items => "[" ++ String.concat ", " (List.map demo_dumps items) ++ "]"
  | JObj fields =>
      "{" ++ String.concat ", "
               (List.map (fun kv => fst kv ++ ": " ++ demo_dumps (snd kv))
                  fields) ++ "}"
  end%string.

Definition demo_tag (key : list byte) : list byte := firstn 16 key.

Definition demo_nonce (draw : nat) : list byte :=
  repeat (byte_of_Z (Z.of_nat draw)) 12.

(** A stand-in for the AEAD cipher: the tag is put before the plaintext
    and checked on decryption. *)
Definition demo_chacha_encrypt (plaintext : pyvalue) (key : list byte)
    (draw : nat) : outcome (list byte * list byte) :=
  if negb (length key =? 32)%nat then Raise (ValueError "key must be 32 bytes")
  else
    match plaintext with
    | VBytes b => Ok (demo_tag key ++ b, demo_nonce draw)
    | VStr s => Ok (demo_tag key ++ str_encode s, demo_nonce draw)
    | _ => Raise (TypeError "plaintext must be bytes or str")
    end.

Definition demo_chacha_decrypt (ciphertext key nonce : list byte)
  : outcome (list byte) :=
  if negb (length nonce =? 12)%nat then Raise (ValueError "nonce must be 12 bytes")
  else if bool_decide (firstn 16 ciphertext = demo_tag key)
  then Ok (skipn 16 ciphertext)
  else Raise InvalidTag.

Definition demo_key (draw : nat) : list byte :=
  repeat (byte_of_Z (Z.of_nat draw + 48)) 32.

Definition accept_dict : BaseModel :=
  {| model_name := "dict";
     model_of_fields fields := Some (JObj fields) |}.

#[global] Instance demo_library : Library :=
  {| json_loads := demo_json_loads;
     json_dumps := fun _ => demo_dumps;
     chacha_encrypt := demo_chacha_encrypt;
     chacha_decrypt := demo_chacha_decrypt;
     generate_chacha20_key := demo_key;
     rsa_private_key := nat;
     rsa_generate_private_key := fun _ _ draw => draw;
     private_bytes := fun k => repeat (byte_of_Z (Z.of_nat k + 97)) 4;
     public_bytes := fun k => repeat (byte_of_Z (Z.of_nat k + 65)) 4;
     load_pem_private_key := fun b => Ok (length b);
     rsa_public_key := nat;
     load_pem_public_key := fun b => Ok (length b);
     is_hash_algorithm := fun name =>
       String.eqb name "SHA512" || String.eqb name "SHA256";
     oaep_encrypt := fun _ plaintext _ _ => Ok plaintext;
     oaep_decrypt := fun _ ciphertext _ => Ok ciphertext;
     CookieSchema := accept_dict;
     ConfigSchema := accept_dict;
     ConfigSchema_default :=
       JObj [("download_directory", JStr "downloads");
             ("client_digest_method", JNull)] |}.

#[global] Existing Instance demo_constants.

Definition empty_world : world :=
  {| fs := ∅; net := []; seed := 0; log := [] |}.

Definition with_file (p : path) (content : string) (w : world) : world :=
  set_fs (insert p (File content)) w.

Definition with_replies (replies : list reply) (w : world) : world :=
  set_net replies w.

Definition ok_response (body : string) : response :=
  {| status_code := 200; text := body; cookies := [("session", "s0")] |}.

Definition status_response (status : Z) (body : string) : response :=
  {| status_code := status; text := body; cookies := [] |}.

(** A service that answers the first request with HTTP 500 and is well
    afterwards. *)
Definition server_error_then_ok : world :=
  with_replies
    [ Responds (status_response 500 "oops");
      Responds (ok_response "{csrf_token: t0}");
      Responds (ok_response "{key_id_token: a2lk}") ]
    empty_world.

(** A token document, and a service whose handshake succeeds and whose
    get-key exchange answers that the token is not found. *)
Definition stale_token_world : world :=
  with_replies
    [ Responds (ok_response "{csrf_token: t0}");
      Responds (status_response 404 EmptyString) ]
    (with_file KEY_ID_TOKEN_JSON_PATH "{key_id_token: kid}" empty_world).

(** A key file of 31 bytes, and no token document. *)
Definition short_key_world : world :=
  with_file SECRET_KEY_PATH "0123456789abcdef0123456789abcde" empty_world.

(** A process that saves two cookie jars, as the two workers of
    [save_cookies] do. *)
Definition demo_cookie : pyvalue := VJson (JObj [("session", JStr "abc123")]).

Definition two_jars : M (bool * bool) :=
  a <- save_data (SecureCookie "fantia") true demo_cookie ;;
  b <- save_data (SecureCookie "pixiv_fanbox") true demo_cookie ;;
  ret (a, b).

(** Three cookies to save: the first and the third for Fantia, the second
    for Pixiv Fanbox. *)
Definition three_logins : list (option (pyvalue * string * bool)) :=
  [ Some (demo_cookie, "fantia", true);
    Some (demo_cookie, "pixiv_fanbox", true);
    Some (demo_cookie, "fantia", true) ].

Definition saver (website readable : string) (save_locally : bool)
  : thread :=
  {| work := SaveCookie demo_cookie website save_locally;
     readable_website := readable; exec := None; result := VNone |}.

(** The jar of Pixiv Fanbox is a directory, so writing it fails. *)
Definition fanbox_jar_is_directory : world :=
  set_fs (insert PIXIV_FANBOX_COOKIE_PATH Dir) empty_world.

(** Each worker finishes as its [run] leaves it in the given world. *)
Definition finished_in (w : world) (t : thread) : thread := fst (run t w).

(** The service answers every request with HTTP 500, and the key is to be
    escrowed. *)
Definition always_500 : world :=
  with_replies (repeat (Responds (status_response 500 "oops")) 6) empty_world.

Definition three_escrow_logins : list (option (pyvalue * string * bool)) :=
  [ Some (demo_cookie, "fantia", true);
    Some (demo_cookie, "pixiv_fanbox", false);
    Some (demo_cookie, "fantia", true) ].

(** The worker of Pixiv Fanbox meets the failing service, the others a
    world of their own without network. *)
Definition finished_with_500 (t : thread) : thread :=
  if String.eqb (task_website (work t)) "pixiv_fanbox"
  then fst (run t always_500)
  else fst (run t empty_world).

(** The one byte 255, which no UTF-8 text contains, as the Fantia jar. *)
Definition undecodable_jar : world :=
  with_file FANTIA_COOKIE_PATH (String (ascii_of_nat 255) EmptyString)
    empty_world.

(** 32 zero bytes, and a vault object with that key for the Fantia jar. *)
Definition K1 : list byte := repeat x00 32.

Definition demo_self : UserData :=
  {| cls := SecureCookie "fantia"; private_key := "aaaa"; public_key := "AAAA";
     client_digest_method := JStr "sha512"; server_digest_method := "sha512";
     data_path := FANTIA_COOKIE_PATH; secret_key := K1; data := VNone |}.

End Demo.

(** ** Round trip of Base64 *)

Module Base64Facts.

Lemma byte_val_range (b : byte) : 0 <= byte_val b < 256.
Proof.
  unfold byte_val. pose proof (Byte.to_N_bounded b) as Hb.
  lia.
Qed.

Lemma byte_of_Z_val (b : byte) : byte_of_Z (byte_val b) = b.
Proof.
  unfold byte_of_Z. pose proof (byte_val_range b) as Hr.
  rewrite Z.mod_small by lia. unfold byte_val.
  rewrite N2Z.id, Byte.of_to_N. reflexivity.
Qed.

Lemma lor_shiftl_small (u v k : Z) :
  0 <= k -> 0 <= v < 2 ^ k -> Z.lor (Z.shiftl u k) v = u * 2 ^ k + v.
Proof.
  intros Hk Hv. rewrite <- Z.shiftl_mul_pow2 by lia.
  symmetry. apply Z.add_nocarry_lor.
  apply Z.bits_inj'. intros n Hn.
  rewrite Z.land_spec, Z.bits_0.
  destruct (Z.lt_ge_cases n k) as [Hlt | Hge].
  - rewrite Z.shiftl_spec_low by lia. reflexivity.
  - rewrite <- (Z.mod_small v (2 ^ k)) by lia.
    rewrite Z.mod_pow2_bits_high by lia. apply andb_false_r.
Qed.

Ltac pow2 :=
  change (2 ^ 18) with 262144 in *; change (2 ^ 16) with 65536 in *;
  change (2 ^ 12) with 4096 in *; change (2 ^ 8) with 256 in *;
  change (2 ^ 6) with 64 in *; change (2 ^ 4) with 16 in *;
  change (2 ^ 2) with 4 in *; change (2 ^ 0) with 1 in *.

Ltac masks :=
  change 63 with (Z.ones 6) in *; change 15 with (Z.ones 4) in *;
  change 3 with (Z.ones 2) in *;
  rewrite ?Z.land_ones by lia; rewrite ?Z.shiftr_div_pow2 by lia.

Ltac divmod := pow2; Z.div_mod_to_equations; lia.

Lemma group_lor (a b c : Z) :
  0 <= a < 256 -> 0 <= b < 256 -> 0 <= c < 256 ->
  Z.lor (Z.shiftl a 16) (Z.lor (Z.shiftl b 8) c) = group a b c.
Proof.
  intros Ha Hb Hc. unfold group.
  rewrite (lor_shiftl_small b c 8) by (pow2; lia).
  rewrite (lor_shiftl_small a _ 16) by (pow2; lia). pow2. lia.
Qed.

Lemma group_lor2 (a b : Z) :
  0 <= a < 256 -> 0 <= b < 256 ->
  Z.lor (Z.shiftl a 16) (Z.shiftl b 8) = group a b 0.
Proof.
  intros Ha Hb. rewrite <- (group_lor a b 0) by lia.
  now rewrite Z.lor_0_r.
Qed.

Lemma group_shiftl (a : Z) : 0 <= a < 256 -> Z.shiftl a 16 = group a 0 0.
Proof.
  intros Ha. unfold group. rewrite Z.shiftl_mul_pow2 by lia. pow2. lia.
Qed.

Lemma sextet_range (n i : Z) : 0 <= i -> 0 <= sextet n i < 64.
Proof.
  intros Hi. unfold sextet. change 63 with (Z.ones 6).
  rewrite Z.land_ones by lia. pow2. apply Z.mod_pos_bound. lia.
Qed.

Lemma sextet_0 (n : Z) : Z.land n 63 = sextet n 0.
Proof. unfold sextet. now rewrite Z.shiftr_0_r. Qed.

Section Group.
Variables a b c : Z.
Hypothesis Ha : 0 <= a < 256.
Hypothesis Hb : 0 <= b < 256.
Hypothesis Hc : 0 <= c < 256.
Let n := group a b c.

Lemma first_byte :
  Z.lor (Z.shiftl (sextet n 18) 2) (Z.shiftr (sextet n 12) 4) = a.
Proof using Ha Hb Hc.
  unfold sextet, n, group. masks.
  rewrite lor_shiftl_small by divmod. divmod.
Qed.

Lemma second_byte :
  Z.lor (Z.shiftl (Z.land (sextet n 12) 15) 4) (Z.shiftr (sextet n 6) 2)
  = b.
Proof using Ha Hb Hc.
  unfold sextet, n, group. masks.
  rewrite lor_shiftl_small by divmod. divmod.
Qed.

Lemma third_byte :
  Z.lor (Z.shiftl (Z.land (sextet n 6) 3) 6) (sextet n 0) = c.
Proof using Ha Hb Hc.
  unfold sextet, n, group. masks.
  rewrite lor_shiftl_small by divmod. divmod.
Qed.
End Group.

Lemma table_ok_all (v : Z) : 0 <= v < 64 -> table_ok v = true.
Proof.
  intros Hv.
  assert (Hall : forallb table_ok (map Z.of_nat (seq 0 64)) = true)
    by (vm_compute; reflexivity).
  rewrite forallb_forall in Hall. apply Hall.
  apply in_map_iff. exists (Z.to_nat v). split; [lia|].
  apply in_seq. lia.
Qed.

Lemma envelope_char_parts (c : ascii) :
  envelope_char c = true ->
  is_ascii c = true /\ Ascii.eqb c "."%char = false /\
  Ascii.eqb c CR = false.
Proof.
  unfold envelope_char. intros H.
  apply andb_prop in H as [H Hcr]. apply andb_prop in H as [Hascii Hdot].
  apply negb_true_iff in Hcr, Hdot. auto.
Qed.

Lemma table_ok_parts (v : Z) :
  0 <= v < 64 ->
  table_a2b (table_b2a v) = Some v /\
  Ascii.eqb (table_b2a v) BASE64_PAD = false /\
  envelope_char (table_b2a v) = true.
Proof.
  intros Hv. pose proof (table_ok_all v Hv) as H. unfold table_ok in H.
  apply andb_prop in H as [H Hchar]. apply andb_prop in H as [Hinv Hpad].
  apply negb_true_iff in Hpad.
  destruct (table_a2b (table_b2a v)) as [v'|]; [|discriminate].
  apply Z.eqb_eq in Hinv. subst v'. auto.
Qed.

Lemma table_a2b_b2a (v : Z) :
  0 <= v < 64 -> table_a2b (table_b2a v) = Some v.
Proof. intros Hv. now destruct (table_ok_parts v Hv). Qed.

Lemma table_b2a_not_pad (v : Z) :
  0 <= v < 64 -> Ascii.eqb (table_b2a v) BASE64_PAD = false.
Proof. intros Hv. now destruct (table_ok_parts v Hv) as (_ & ? & _). Qed.

Lemma table_b2a_char (v : Z) :
  0 <= v < 64 -> envelope_char (table_b2a v) = true.
Proof. intros Hv. now destruct (table_ok_parts v Hv) as (_ & _ & ?). Qed.

(** One step of the decoding loop on a character of the alphabet. *)
Lemma a2b_loop_symbol (v : Z) (input : list ascii) (q l p : Z) :
  0 <= v < 64 ->
  a2b_loop (table_b2a v :: input) q l p =
    if q =? 0 then a2b_loop input 1 v 0
    else if q =? 1 then
      cons (byte_of_Z (Z.lor (Z.shiftl l 2) (Z.shiftr v 4)))
        <$> a2b_loop input 2 (Z.land v 15) 0
    else if q =? 2 then
      cons (byte_of_Z (Z.lor (Z.shiftl l 4) (Z.shiftr v 2)))
        <$> a2b_loop input 3 (Z.land v 3) 0
    else
      cons (byte_of_Z (Z.lor (Z.shiftl l 6) v)) <$> a2b_loop input 0 0 0.
Proof.
  intros Hv. cbn [a2b_loop].
  rewrite table_b2a_not_pad, table_a2b_b2a by assumption. reflexivity.
Qed.

Lemma enc3_sextets (a b c : byte) :
  let n := group (byte_val a) (byte_val b) (byte_val c) in
  enc3 a b c =
    [ table_b2a (sextet n 18); table_b2a (sextet n 12);
      table_b2a (sextet n 6); table_b2a (sextet n 0) ].
Proof.
  cbv zeta. unfold enc3.
  rewrite group_lor by apply byte_val_range.
  now rewrite sextet_0.
Qed.

Lemma a2b_loop_group (a b c : byte) (rest : list ascii) (l p : Z) :
  a2b_loop (enc3 a b c ++ rest) 0 l p =
    (fun t => a :: b :: c :: t) <$> a2b_loop rest 0 0 0.
Proof.
  pose proof (byte_val_range a) as Ha. pose proof (byte_val_range b) as Hb.
  pose proof (byte_val_range c) as Hc.
  rewrite enc3_sextets. cbn [app].
  rewrite !a2b_loop_symbol by (apply sextet_range; lia).
  cbn [Z.eqb].
  rewrite first_byte, second_byte, third_byte by assumption.
  rewrite !byte_of_Z_val.
  destruct (a2b_loop rest 0 0 0); reflexivity.
Qed.

Lemma list_triple_ind {A} (P : list A -> Prop) :
  P [] -> (forall a, P [a]) -> (forall a b, P [a; b]) ->
  (forall a b c l, P l -> P (a :: b :: c :: l)) ->
  forall l, P l.
Proof.
  intros H0 H1 H2 H3 l.
  enough (P l /\ (forall a, P (a :: l)) /\ (forall a b, P (a :: b :: l)))
    by tauto.
  induction l as [|x l (IH0 & IH1 & IH2)]; [tauto|].
  split; [apply IH1|]. split; [intros; apply IH2|].
  intros a b. now apply H3.
Qed.

(** [base64.b64decode] undoes [base64.b64encode]. *)
Lemma a2b_b2a_base64 (data : list byte) :
  a2b_base64 (b2a_base64 data) = Some data.
Proof.
  unfold a2b_base64.
  induction data as [|a|a b|a b c rest IH] using list_triple_ind.
  - reflexivity.
  - pose proof (byte_val_range a) as Ha.
    cbn [b2a_base64]. cbv zeta. rewrite group_shiftl by assumption.
    change (Z.land (Z.shiftr ?n ?i) 63) with (sextet n i).
    rewrite !a2b_loop_symbol by (apply sextet_range; lia).
    cbn [Z.eqb]. rewrite first_byte by lia. rewrite byte_of_Z_val.
    reflexivity.
  - pose proof (byte_val_range a) as Ha. pose proof (byte_val_range b) as Hb.
    cbn [b2a_base64]. cbv zeta. rewrite group_lor2 by assumption.
    change (Z.land (Z.shiftr ?n ?i) 63) with (sextet n i).
    rewrite !a2b_loop_symbol by (apply sextet_range; lia).
    cbn [Z.eqb]. rewrite first_byte, second_byte by lia.
    rewrite !byte_of_Z_val. reflexivity.
  - change (b2a_base64 (a :: b :: c :: rest))
      with (enc3 a b c ++ b2a_base64 rest).
    rewrite a2b_loop_group, IH. reflexivity.
Qed.

Lemma b2a_base64_chars (data : list byte) :
  forallb envelope_char (b2a_base64 data) = true.
Proof.
  assert (Hsym : forall n i, 0 <= i ->
            envelope_char (table_b2a (Z.land (Z.shiftr n i) 63)) = true).
  { intros n i Hi. pose proof (sextet_range n i Hi) as Hr.
    change (Z.land (Z.shiftr n i) 63) with (sextet n i).
    now apply table_b2a_char. }
  induction data as [|a|a b|a b c rest IH] using list_triple_ind.
  - reflexivity.
  - cbn [b2a_base64 forallb]. cbv zeta. rewrite !Hsym by lia. reflexivity.
  - cbn [b2a_base64 forallb]. cbv zeta. rewrite !Hsym by lia. reflexivity.
  - change (b2a_base64 (a :: b :: c :: rest))
      with (enc3 a b c ++ b2a_base64 rest).
    rewrite forallb_app, IH, andb_true_r. unfold enc3. cbn [forallb].
    rewrite !Hsym by lia. rewrite <- (Z.shiftr_0_r (Z.lor _ _)) at 1.
    rewrite Hsym by lia. reflexivity.
Qed.

End Base64Facts.

(** ** Text of the envelope *)

Module EnvelopeFacts.
Import Base64Facts.

Lemma byte_val_of_ascii (c : ascii) : byte_val (byte_of_ascii c) = ascii_val c.
Proof.
  unfold byte_val, ascii_val. f_equal.
  apply Byte.to_of_N. symmetry. apply byte_of_ascii_via_N.
Qed.

Lemma utf8_valid_ascii (bs : list byte) :
  forallb (in_range 0 127) bs = true -> utf8_valid bs = true.
Proof.
  induction bs as [|b bs IH]; [reflexivity|].
  cbn [forallb utf8_valid]. intros H.
  apply andb_prop in H as [Hb Hbs]. rewrite Hb. now apply IH.
Qed.

Lemma b64encode_ascii (data : list byte) :
  forallb (in_range 0 127) (b64encode data) = true.
Proof.
  unfold b64encode. pose proof (b2a_base64_chars data) as H.
  induction (b2a_base64 data) as [|c l IH]; [reflexivity|].
  cbn [forallb map] in *. apply andb_prop in H as [Hc Hl].
  rewrite IH by assumption. rewrite andb_true_r.
  apply envelope_char_parts in Hc as (Hc & _). unfold is_ascii in Hc.
  unfold in_range. rewrite byte_val_of_ascii.
  pose proof (N_ascii_bounded c). unfold ascii_val in *. lia.
Qed.

Lemma string_of_b64encode (data : list byte) :
  string_of_list_byte (b64encode data) = string_of_list_ascii (b2a_base64 data).
Proof.
  unfold string_of_list_byte, b64encode. f_equal.
  rewrite map_map. erewrite map_ext; [apply map_id|].
  intros c. apply ascii_of_byte_of_ascii.
Qed.

(** [base64.b64encode(b).decode("utf-8")] never fails. *)
Lemma bytes_decode_b64encode (data : list byte) :
  bytes_decode (b64encode data) = Ok (string_of_list_ascii (b2a_base64 data)).
Proof.
  unfold bytes_decode.
  rewrite utf8_valid_ascii by apply b64encode_ascii.
  now rewrite string_of_b64encode.
Qed.

Lemma split_no_sep (sep : ascii) (l : list ascii) :
  forallb (fun c => negb (Ascii.eqb c sep)) l = true ->
  split sep (string_of_list_ascii l) = [string_of_list_ascii l].
Proof.
  induction l as [|c l IH]; [reflexivity|].
  cbn [forallb string_of_list_ascii split]. intros H.
  apply andb_prop in H as [Hc Hl]. apply negb_true_iff in Hc.
  rewrite Hc, IH by assumption. reflexivity.
Qed.

Lemma append_empty (s : string) : String.append EmptyString s = s.
Proof. reflexivity. Qed.

Lemma append_String (c : ascii) (s t : string) :
  String.append (String c s) t = String c (String.append s t).
Proof. reflexivity. Qed.

Lemma split_join (sep : ascii) (l1 : list ascii) (s2 : string) :
  forallb (fun c => negb (Ascii.eqb c sep)) l1 = true ->
  split sep (string_of_list_ascii l1 ++ String sep s2)
  = string_of_list_ascii l1 :: split sep s2.
Proof.
  induction l1 as [|c l IH].
  - intros _. cbn [string_of_list_ascii]. rewrite append_empty.
    cbn [split]. now rewrite Ascii.eqb_refl.
  - cbn [forallb string_of_list_ascii]. intros H. rewrite append_String.
    cbn [split].
    apply andb_prop in H as [Hc Hl]. apply negb_true_iff in Hc.
    rewrite Hc, IH by assumption. reflexivity.
Qed.

Lemma no_dot_b2a (data : list byte) :
  forallb (fun c => negb (Ascii.eqb c ".")) (b2a_base64 data) = true.
Proof.
  pose proof (b2a_base64_chars data) as H.
  induction (b2a_base64 data) as [|c l IH]; [reflexivity|].
  cbn [forallb] in *. apply andb_prop in H as [Hc Hl].
  rewrite IH by assumption.
  apply envelope_char_parts in Hc as (_ & Hc & _). now rewrite Hc.
Qed.

Lemma no_cr_b2a (data : list byte) :
  forallb (fun c => negb (Ascii.eqb c CR)) (b2a_base64 data) = true.
Proof.
  pose proof (b2a_base64_chars data) as H.
  induction (b2a_base64 data) as [|c l IH]; [reflexivity|].
  cbn [forallb] in *. apply andb_prop in H as [Hc Hl].
  rewrite IH by assumption.
  apply envelope_char_parts in Hc as (_ & _ & Hc). now rewrite Hc.
Qed.

Lemma is_ascii_b2a (data : list byte) :
  forallb is_ascii (b2a_base64 data) = true.
Proof.
  pose proof (b2a_base64_chars data) as H.
  induction (b2a_base64 data) as [|c l IH]; [reflexivity|].
  cbn [forallb] in *. apply andb_prop in H as [Hc Hl].
  rewrite IH by assumption.
  apply envelope_char_parts in Hc as (Hc & _). now rewrite Hc.
Qed.

(** The text written by [encrypt_data] splits into its two fields. *)
Lemma split_envelope (ciphertext nonce : list byte) :
  split "." (join2 "." (string_of_list_ascii (b2a_base64 ciphertext))
                       (string_of_list_ascii (b2a_base64 nonce)))
  = [ string_of_list_ascii (b2a_base64 ciphertext);
      string_of_list_ascii (b2a_base64 nonce) ].
Proof.
  unfold join2. rewrite append_String, append_empty.
  rewrite split_join by apply no_dot_b2a.
  now rewrite split_no_sep by apply no_dot_b2a.
Qed.

Lemma b64decode_b64encode (data : list byte) :
  b64decode (string_of_list_ascii (b2a_base64 data)) = inr data.
Proof.
  unfold b64decode. cbv zeta.
  rewrite list_ascii_of_string_of_list_ascii.
  now rewrite is_ascii_b2a, a2b_b2a_base64.
Qed.

Lemma in_range_ascii (c : ascii) :
  is_ascii c = true -> in_range 0 127 (byte_of_ascii c) = true.
Proof.
  unfold is_ascii, in_range. rewrite byte_val_of_ascii.
  pose proof (N_ascii_bounded c). unfold ascii_val. lia.
Qed.

Lemma universal_newlines_no_cr (l : list ascii) :
  forallb (fun c => negb (Ascii.eqb c CR)) l = true ->
  universal_newlines (string_of_list_ascii l) = string_of_list_ascii l.
Proof.
  induction l as [|c l IH]; [reflexivity|].
  cbn [forallb string_of_list_ascii universal_newlines]. intros H.
  apply andb_prop in H as [Hc Hl]. apply negb_true_iff in Hc.
  rewrite Hc, IH by assumption. reflexivity.
Qed.

(** A file of ASCII characters without carriage return reads, in text
    mode, as it was written. *)
Lemma text_of_plain_file (l : list ascii) :
  forallb is_ascii l = true ->
  forallb (fun c => negb (Ascii.eqb c CR)) l = true ->
  text_of_file (string_of_list_ascii l) = Ok (string_of_list_ascii l).
Proof.
  intros Hascii Hcr. unfold text_of_file, list_byte_of_string.
  rewrite list_ascii_of_string_of_list_ascii.
  rewrite universal_newlines_no_cr by assumption.
  rewrite utf8_valid_ascii; [reflexivity|].
  clear Hcr. induction l as [|c l IH]; [reflexivity|].
  cbn [forallb map] in *. apply andb_prop in Hascii as [Hc Hl].
  now rewrite in_range_ascii, IH.
Qed.

Lemma envelope_as_list (a b : list ascii) :
  join2 "." (string_of_list_ascii a) (string_of_list_ascii b)
  = string_of_list_ascii (a ++ "."%char :: b).
Proof.
  unfold join2. rewrite append_String, append_empty.
  induction a as [|c a IH]; [reflexivity|].
  cbn [string_of_list_ascii app]. now rewrite append_String, IH.
Qed.

(** The text written by [encrypt_data] is read back unchanged. *)
Lemma text_of_envelope (ciphertext nonce : list byte) :
  text_of_file (join2 "." (string_of_list_ascii (b2a_base64 ciphertext))
                          (string_of_list_ascii (b2a_base64 nonce)))
  = Ok (join2 "." (string_of_list_ascii (b2a_base64 ciphertext))
                  (string_of_list_ascii (b2a_base64 nonce))).
Proof.
  rewrite envelope_as_list. apply text_of_plain_file.
  - rewrite forallb_app. cbn [forallb].
    now rewrite !is_ascii_b2a.
  - rewrite forallb_app. cbn [forallb].
    now rewrite !no_cr_b2a.
Qed.

End EnvelopeFacts.


(** ** Running the monad in proofs *)

Ltac munfold :=
  cbv beta iota zeta delta
    [bind ret raise lift try_except emit fresh get_world
     is_file is_dir read_text read_bytes write_text write_bytes unlink].

Ltac wsimpl :=
  cbn [fs net seed log set_fs set_net next_seed add_log fst snd
       given is_None negb andb orb].

Ltac msimpl := munfold; wsimpl.

(** ** The stand-in cipher keeps the contract *)

Module DemoFacts.
Import Demo.

Lemma demo_cipher_round_trip : @cipher_round_trip demo_library.
Proof.
  intros p key draw Hkey.
  exists (demo_tag key ++ p), (demo_nonce draw).
  assert (Htag : length (demo_tag key) = 16%nat).
  { unfold demo_tag. rewrite length_firstn. lia. }
  split.
  - cbn. unfold demo_chacha_encrypt. rewrite Hkey. reflexivity.
  - cbn. rewrite <- Htag.
    rewrite take_app_length, drop_app_length.
    now rewrite bool_decide_eq_true_2.
Qed.

End DemoFacts.

(** ** The envelope on disk: saving, then loading *)

Module EnvelopeRoundTrip.
Import Base64Facts EnvelopeFacts.

Section EnvelopeRoundTrip.
Context `{L : Library}.

Lemma b64decode_text_b64encode (data : list byte) :
  b64decode_text (string_of_list_ascii (b2a_base64 data)) = Ok data.
Proof.
  unfold b64decode_text, b64decode_obj. now rewrite b64decode_b64encode.
Qed.

(** C1. For every byte string [p] and every 32-byte key, [encrypt_data]
    writes the envelope (Base64 of the ciphertext, a dot, Base64 of the
    nonce) to the data path, and a following [decrypt_data] with
    [decode=False], no schema and no regex returns exactly [p] and leaves
    the world as it is. The cipher is taken with its round-trip contract;
    the data path is not a directory. *)
Theorem encrypt_then_decrypt_returns_plaintext
    (Hcipher : cipher_round_trip) (self : UserData) (p : list byte)
    (w : world) :
  length (secret_key self) = 32%nat ->
  fs w !! data_path self <> Some Dir ->
  exists w1,
    encrypt_data self (VBytes p) w = (Ok tt, w1) /\
    decrypt_data self false None None w1 = (Ok (VBytes p), w1).
Proof.
  intros Hkey Hdir.
  destruct (Hcipher p (secret_key self) (seed w) Hkey)
    as (ciphertext & nonce & Henc & Hdec).
  eexists. split.
  - unfold encrypt_data, mkdir_parent. msimpl. rewrite Henc.
    rewrite !bytes_decode_b64encode. wsimpl.
    destruct (fs w !! data_path self) as [[|content]|] eqn:Hnode;
      [congruence|reflexivity|reflexivity].
  - unfold decrypt_data.
    repeat first
      [ progress msimpl
      | rewrite lookup_insert_eq
      | rewrite text_of_envelope
      | rewrite split_envelope
      | rewrite b64decode_text_b64encode
      | rewrite Hdec
      | progress cbn [unpack2] ].
    reflexivity.
Qed.

End EnvelopeRoundTrip.

Import Demo.

Lemma encrypt_then_decrypt_witness :
  exists w1,
    encrypt_data demo_self (VBytes (list_byte_of_string "session=abc123"))
      empty_world = (Ok tt, w1) /\
    decrypt_data demo_self false None None w1
    = (Ok (VBytes (list_byte_of_string "session=abc123")), w1).
Proof.
  apply (encrypt_then_decrypt_returns_plaintext
           DemoFacts.demo_cipher_round_trip demo_self
           (list_byte_of_string "session=abc123") empty_world).
  - reflexivity.
  - vm_compute. discriminate.
Defined.

End EnvelopeRoundTrip.

(** ** Self-healing load *)

Module SelfHealing.

Ltac destruct_match :=
  match goal with
  | |- context [match ?x with _ => _ end] =>
      lazymatch x with
      | context [match _ with _ => _ end] => fail
      | _ => destruct x eqn:?
      end
  end.

Section SelfHealing.
Context `{L : Library}.

Lemma b64decode_text_caught (s : string) (e : exn) :
  b64decode_text s = Raise e -> is_ValueError e || is_TypeError e = true.
Proof.
  unfold b64decode_text, b64decode_obj.
  destruct (b64decode s) as [[]|]; intros [= <-]; reflexivity.
Qed.

Lemma validate_schema_run (model : BaseModel) (j : json) (w : world) :
  exists evs,
    validate_schema model j w
    = (validated model j,
       {| fs := fs w; net := net w; seed := seed w; log := log w ++ evs |}).
Proof.
  unfold validate_schema, validated.
  destruct w as [f n sd lg].
  destruct j; try (exists []; cbn; now rewrite app_nil_r);
    (destruct (parse_data model _) as [[o|]|e]; cbn;
     [ exists []; cbn; now rewrite app_nil_r
     | eexists; reflexivity
     | exists []; cbn; now rewrite app_nil_r ]).
Qed.

Lemma text_of_file_undecodable (raw : string) :
  utf8_valid (list_byte_of_string raw) = false ->
  text_of_file raw = Raise UnicodeDecodeError.
Proof. unfold text_of_file. now intros ->. Qed.

(** An absent data file: [None], and nothing is deleted. *)
Lemma decrypt_data_absent (self : UserData) (decode : bool)
    (schema : option BaseModel) (regex : option Pattern) (w : world) :
  given schema && given regex = false ->
  (forall content, fs w !! data_path self <> Some (File content)) ->
  exists w',
    decrypt_data self decode schema regex w = (Ok VNone, w') /\
    fs w' = fs w /\ net w' = net w /\ seed w' = seed w.
Proof.
  intros Hargs Habsent. unfold decrypt_data. rewrite Hargs.
  destruct (fs w !! data_path self) as [[|content]|] eqn:Hnode;
    [| now destruct (Habsent content) |];
    destruct (negb decode && (given schema || given regex));
    msimpl; rewrite Hnode; eexists; (split; [reflexivity|]); now wsimpl.
Qed.

Ltac use_hyps :=
  repeat first
    [ progress msimpl
    | progress cbn [unpack2 is_ValueError is_TypeError is_InvalidTag]
    | match goal with
      | H : ?l = _ |- context [?l] => rewrite H
      end ].

Ltac deleted := eexists; (split; [reflexivity|]); now wsimpl.

(** A data file whose bytes are no UTF-8 text: the read raises, outside
    every [try], and the file stays. *)
Lemma decrypt_data_undecodable (self : UserData) (decode : bool)
    (schema : option BaseModel) (regex : option Pattern) (w : world)
    (raw : string) :
  given schema && given regex = false ->
  fs w !! data_path self = Some (File raw) ->
  utf8_valid (list_byte_of_string raw) = false ->
  exists w',
    decrypt_data self decode schema regex w = (Raise UnicodeDecodeError, w') /\
    fs w' = fs w /\ net w' = net w /\ seed w' = seed w.
Proof.
  intros Hargs Hfile Hraw. apply text_of_file_undecodable in Hraw.
  unfold decrypt_data. rewrite Hargs.
  destruct (negb decode && (given schema || given regex));
    use_hyps; deleted.
Qed.

(** A data file read as a corrupt text: it is deleted and [None] is
    returned. *)
Lemma decrypt_data_corrupt (self : UserData) (decode : bool)
    (schema : option BaseModel) (regex : option Pattern) (w : world)
    (raw content : string) :
  given schema && given regex = false ->
  fs w !! data_path self = Some (File raw) ->
  text_of_file raw = Ok content ->
  corrupt self schema regex content ->
  exists w',
    decrypt_data self decode schema regex w = (Ok VNone, w') /\
    fs w' = delete (data_path self) (fs w) /\
    net w' = net w /\ seed w' = seed w.
Proof.
  intros Hargs Hfile Hraw Hcorrupt. unfold decrypt_data. rewrite Hargs.
  destruct Hcorrupt as
    [ Hsplit
    | a b e Hsplit [Ha | (ciphertext & Ha & Hb)]
    | a b ciphertext nonce e Hsplit Ha Hb Hdec Hcaught
    | a b ciphertext nonce plaintext s pattern Hsplit Ha Hb Hdec Hs -> Hmis
    | a b ciphertext nonce plaintext s model Hsplit Ha Hb Hdec Hs -> Hjson ].
  - destruct (negb decode && (given schema || given regex));
      destruct (split "." content) as [|a [|b [|c l]]] eqn:Hfields;
      try (now destruct (Hsplit a b)); use_hyps; deleted.
  - pose proof (b64decode_text_caught _ _ Ha) as Hcaught.
    destruct (negb decode && (given schema || given regex));
      use_hyps; deleted.
  - pose proof (b64decode_text_caught _ _ Hb) as Hcaught.
    destruct (negb decode && (given schema || given regex));
      use_hyps; deleted.
  - destruct (negb decode && (given schema || given regex));
      use_hyps; deleted.
  - destruct schema; [discriminate|].
    destruct decode; use_hyps; deleted.
  - destruct regex; [now rewrite andb_true_r in Hargs|].
    destruct (json_loads s) as [j|] eqn:Hloads.
    + destruct (validate_schema_run model j
                  (if decode then w else add_log (Warned "decode will be set to True") w))
        as (evs & Hrun).
      unfold schema_refuses in Hjson.
      destruct (validated model j) as [[o|]|e]; try discriminate.
      destruct decode; use_hyps; deleted.
    + destruct decode; use_hyps; deleted.
Qed.

(** A data file read as a valid text: its payload is returned and the
    file stays. *)
Lemma decrypt_data_intact (self : UserData) (decode : bool)
    (schema : option BaseModel) (regex : option Pattern) (w : world)
    (raw content : string) (payload : pyvalue) :
  fs w !! data_path self = Some (File raw) ->
  text_of_file raw = Ok content ->
  intact self decode schema regex content payload ->
  exists w',
    decrypt_data self decode schema regex w = (Ok payload, w') /\
    fs w' = fs w /\ net w' = net w /\ seed w' = seed w.
Proof.
  intros Hfile Hraw Hintact. unfold decrypt_data.
  destruct Hintact as
    [ a b ciphertext nonce plaintext Hsplit Ha Hb Hdec -> -> ->
    | a b ciphertext nonce plaintext s Hsplit Ha Hb Hdec Hs -> Hregex
    | a b ciphertext nonce plaintext s model j Hsplit Ha Hb Hdec Hs -> ->
        Hloads Hvalid ].
  - use_hyps. deleted.
  - destruct regex as [pattern|]; [destruct decode | subst decode];
      use_hyps; deleted.
  - destruct (validate_schema_run model j
                (if decode then w else add_log (Warned "decode will be set to True") w))
      as (evs & Hrun).
    unfold schema_accepts in Hvalid.
    destruct (validated model j) as [[o|]|e]; try discriminate.
    destruct decode; use_hyps; deleted.
Qed.

(** C2. An existing data file that is read as a text whose content is
    corrupt (no two-field envelope around one dot, a field that is not
    Base64, a decryption that fails authentication, a regex mismatch, or,
    with a schema, a JSON or schema-validation failure) is deleted by
    [decrypt_data], which returns [None] without raising; when there is no
    file at the data path it returns [None] and deletes nothing. But a data
    file whose bytes are no UTF-8 text is not deleted: the read of the file
    raises [UnicodeDecodeError] to the caller and the file stays as it is.
    The call gives at most one of schema and regex. *)
Theorem decrypt_data_on_corrupt_files (self : UserData) (decode : bool)
    (schema : option BaseModel) (regex : option Pattern) (w : world) :
  given schema && given regex = false ->
  (forall raw,
     fs w !! data_path self = Some (File raw) ->
     utf8_valid (list_byte_of_string raw) = false ->
     exists w',
       decrypt_data self decode schema regex w
       = (Raise UnicodeDecodeError, w') /\
       fs w' = fs w) /\
  (forall raw content,
     fs w !! data_path self = Some (File raw) ->
     text_of_file raw = Ok content ->
     corrupt self schema regex content ->
     exists w',
       decrypt_data self decode schema regex w = (Ok VNone, w') /\
       fs w' = delete (data_path self) (fs w)) /\
  ((forall content, fs w !! data_path self <> Some (File content)) ->
   exists w',
     decrypt_data self decode schema regex w = (Ok VNone, w') /\
     fs w' = fs w).
Proof.
  intros Hargs. split; [|split].
  - intros raw Hfile Hraw.
    destruct (decrypt_data_undecodable self decode schema regex w raw
                Hargs Hfile Hraw) as (w' & Hrun & Hfs & _).
    now exists w'.
  - intros raw content Hfile Hraw Hcorrupt.
    destruct (decrypt_data_corrupt self decode schema regex w raw content
                Hargs Hfile Hraw Hcorrupt) as (w' & Hrun & Hfs & _).
    now exists w'.
  - intros Habsent.
    destruct (decrypt_data_absent self decode schema regex w Hargs Habsent)
      as (w' & Hrun & Hfs & _).
    now exists w'.
Qed.

(** *** Loading twice *)

Lemma fsd_ret {A} (a : A) : fs_determined (ret a).
Proof. intros w w' H. now split. Qed.

Lemma fsd_raise {A} (e : exn) : fs_determined (@raise A e).
Proof. intros w w' H. now split. Qed.

Lemma fsd_lift {A} (r : outcome A) : fs_determined (lift r).
Proof. intros w w' H. now split. Qed.

Lemma fsd_emit (e : event) : fs_determined (emit e).
Proof. intros w w' H. now split. Qed.

Lemma fsd_is_file (p : path) : fs_determined (is_file p).
Proof. intros w w' H. unfold is_file. cbn. now rewrite H. Qed.

Lemma fsd_read_text (p : path) : fs_determined (read_text p).
Proof.
  intros w w' H. unfold read_text. rewrite H.
  now destruct (fs w' !! p) as [[]|].
Qed.

Lemma fsd_unlink (p : path) : fs_determined (unlink p).
Proof.
  intros w w' H. unfold unlink. rewrite H.
  destruct (fs w' !! p) as [[]|]; cbn; auto. now rewrite H.
Qed.

Lemma fsd_bind {A B} (m : M A) (k : A -> M B) :
  fs_determined m -> (forall a, fs_determined (k a)) ->
  fs_determined (bind m k).
Proof.
  intros Hm Hk w w' H. unfold bind.
  destruct (Hm w w' H) as [Hr Hfs].
  destruct (m w) as [[a|e] w1], (m w') as [[a'|e'] w1'];
    cbn in Hr, Hfs; try discriminate.
  - injection Hr as <-. now apply Hk.
  - cbn. split; congruence.
Qed.

Lemma fsd_try_except {A} (m : M A) (caught : exn -> bool)
    (handler : exn -> M A) :
  fs_determined m -> (forall e, fs_determined (handler e)) ->
  fs_determined (try_except m caught handler).
Proof.
  intros Hm Hh w w' H. unfold try_except.
  destruct (Hm w w' H) as [Hr Hfs].
  destruct (m w) as [[a|e] w1], (m w') as [[a'|e'] w1'];
    cbn in Hr, Hfs; try discriminate.
  - cbn. split; congruence.
  - injection Hr as <-. destruct (caught e); [now apply Hh | now split].
Qed.

Lemma fsd_validate_schema (model : BaseModel) (j : json) :
  fs_determined (validate_schema model j).
Proof.
  unfold validate_schema.
  destruct j; try apply fsd_ret;
    (apply fsd_bind; [apply fsd_lift|];
     intros [o|];
     [apply fsd_ret | apply fsd_bind; [apply fsd_emit | intros; apply fsd_ret]]).
Qed.

Ltac fsd :=
  repeat first
    [ apply fsd_ret | apply fsd_raise | apply fsd_lift | apply fsd_emit
    | apply fsd_is_file | apply fsd_read_text | apply fsd_unlink
    | apply fsd_validate_schema
    | apply fsd_bind; [| intros ?]
    | apply fsd_try_except; [| intros ?]
    | match goal with
      | |- fs_determined (match ?x with _ => _ end) => destruct x
      end ].

(** What [decrypt_data] returns, and what it does to the files, depends on
    the files alone. *)
Lemma decrypt_data_fs_determined (self : UserData) (decode : bool)
    (schema : option BaseModel) (regex : option Pattern) :
  fs_determined (decrypt_data self decode schema regex).
Proof. unfold decrypt_data. fsd. Qed.

(** [decrypt_data] either leaves the files as they are, or returns [None]
    with the data file deleted. *)
Lemma decrypt_data_effect (self : UserData) (decode : bool)
    (schema : option BaseModel) (regex : option Pattern) (w : world) :
  fs (snd (decrypt_data self decode schema regex w)) = fs w \/
  (fst (decrypt_data self decode schema regex w) = Ok VNone /\
   given schema && given regex = false /\
   fs (snd (decrypt_data self decode schema regex w))
   = delete (data_path self) (fs w)).
Proof.
  destruct (given schema && given regex) eqn:Hargs.
  { left. unfold decrypt_data. now rewrite Hargs. }
  unfold decrypt_data, validate_schema. rewrite Hargs. msimpl.
  repeat destruct_match; wsimpl; auto.
Qed.

(** C9. Calling [decrypt_data] twice in succession with the same
    arguments, nothing being saved in between, ends the same way both times
    and the second call changes no file: a file read as a valid text yields
    its payload twice and stays, an absent file [None] twice, and a file
    read as a corrupt text [None] on the first call, which deletes it, and
    [None] again on the second. But a file whose bytes are no UTF-8 text
    yields nothing: both calls raise [UnicodeDecodeError] and the file
    stays. *)
Theorem decrypt_data_twice (self : UserData) (decode : bool)
    (schema : option BaseModel) (regex : option Pattern) (w : world) :
  let first := decrypt_data self decode schema regex w in
  let second := decrypt_data self decode schema regex (snd first) in
  (fst second = fst first /\ fs (snd second) = fs (snd first)) /\
  (forall raw content payload,
     fs w !! data_path self = Some (File raw) ->
     text_of_file raw = Ok content ->
     intact self decode schema regex content payload ->
     fst first = Ok payload /\ fs (snd first) = fs w /\
     fst second = Ok payload) /\
  (given schema && given regex = false ->
   (forall content, fs w !! data_path self <> Some (File content)) ->
   fst first = Ok VNone /\ fst second = Ok VNone) /\
  (given schema && given regex = false ->
   forall raw content,
     fs w !! data_path self = Some (File raw) ->
     text_of_file raw = Ok content ->
     corrupt self schema regex content ->
     fst first = Ok VNone /\
     fs (snd first) = delete (data_path self) (fs w) /\
     fst second = Ok VNone) /\
  (given schema && given regex = false ->
   forall raw,
     fs w !! data_path self = Some (File raw) ->
     utf8_valid (list_byte_of_string raw) = false ->
     fst first = Raise UnicodeDecodeError /\
     fs (snd first) = fs w /\
     fst second = Raise UnicodeDecodeError).
Proof.
  intros first second.
  assert (Hsame : fst second = fst first /\ fs (snd second) = fs (snd first)).
  { subst first second.
    destruct (decrypt_data_effect self decode schema regex w)
      as [Hkept | (Hnone & Hargs & Hdel)].
    - destruct (decrypt_data_fs_determined self decode schema regex _ _ Hkept)
        as [Hr Hfs].
      split; [exact Hr | exact Hfs].
    - destruct (decrypt_data_absent self decode schema regex
                  (snd (decrypt_data self decode schema regex w)) Hargs)
        as (w2 & Hrun & Hfs & _).
      { intros content. rewrite Hdel, lookup_delete_eq. discriminate. }
      rewrite Hrun. cbn [fst snd]. now rewrite Hnone. }
  destruct Hsame as [Hr Hfs2].
  split; [now split|]. rewrite Hr. subst first. clear second Hr Hfs2.
  split; [|split; [|split]].
  - intros raw content payload Hfile Hraw Hintact.
    destruct (decrypt_data_intact self decode schema regex w raw content
                payload Hfile Hraw Hintact) as (w1 & Hrun & Hfs & _).
    now rewrite Hrun.
  - intros Hargs Habsent.
    destruct (decrypt_data_absent self decode schema regex w Hargs Habsent)
      as (w1 & Hrun & _).
    now rewrite Hrun.
  - intros Hargs raw content Hfile Hraw Hcorrupt.
    destruct (decrypt_data_corrupt self decode schema regex w raw content
                Hargs Hfile Hraw Hcorrupt) as (w1 & Hrun & Hfs & _).
    now rewrite Hrun.
  - intros Hargs raw Hfile Hraw.
    destruct (decrypt_data_undecodable self decode schema regex w raw
                Hargs Hfile Hraw) as (w1 & Hrun & Hfs & _).
    now rewrite Hrun.
Qed.

End SelfHealing.

Import Demo.

(** What [validate_schema] makes of a list: a list of pairs is converted
    to a [dict] and parsed, the empty list included; a pair whose first
    object is no [str] makes the call of the model class raise [TypeError],
    which [validate_schema] does not catch; any other list is invalid. *)
Example validated_lists :
  validated DanbooruAuthSchema (JArr [JArr [JStr "username"; JStr "u"]])
  = Ok (Some (JObj [("username", JStr "u"); ("api_key", JNull)])) /\
  validated DanbooruAuthSchema (JArr [])
  = Ok (Some (JObj [("username", JNull); ("api_key", JNull)])) /\
  validated DanbooruAuthSchema (JArr [JArr [JNum 1; JNum 2]])
  = Raise (TypeError "keywords must be strings") /\
  validated DanbooruAuthSchema (JArr [JNum 1]) = Ok None.
Proof. repeat split. Qed.

(** The jar of one byte 255 has no envelope of two fields. *)
Lemma undecodable_jar_has_no_envelope :
  corrupt demo_self (Some CookieSchema) None
    (String (ascii_of_nat 255) EmptyString).
Proof. apply malformed_envelope. intros a b. vm_compute. discriminate. Qed.

Lemma decrypt_data_on_corrupt_files_witness :
  exists w',
    decrypt_data demo_self true (Some CookieSchema) None undecodable_jar
    = (Raise UnicodeDecodeError, w') /\
    fs w' = fs undecodable_jar.
Proof.
  apply (proj1 (decrypt_data_on_corrupt_files demo_self true
                  (Some CookieSchema) None undecodable_jar eq_refl)
           (String (ascii_of_nat 255) EmptyString)).
  - reflexivity.
  - reflexivity.
Defined.

Lemma decrypt_data_twice_witness :
  let first :=
    decrypt_data demo_self true (Some CookieSchema) None undecodable_jar in
  let second :=
    decrypt_data demo_self true (Some CookieSchema) None (snd first) in
  fst first = Raise UnicodeDecodeError /\
  fs (snd first) = fs undecodable_jar /\
  fst second = Raise UnicodeDecodeError.
Proof.
  apply (proj2 (proj2 (proj2 (proj2
           (decrypt_data_twice demo_self true (Some CookieSchema) None
              undecodable_jar))))
           eq_refl (String (ascii_of_nat 255) EmptyString)).
  - reflexivity.
  - reflexivity.
Defined.

End SelfHealing.

(** ** The retry wrappers *)

Module Retries.

Section Retries.
Context `{C : Constants} `{L : Library}.

Lemma retried_run_length {A} (attempt : M A) caught delay budget w errors
    final w' :
  retried_run attempt caught delay budget w errors final w' ->
  (length errors < budget)%nat /\ Forall (fun e => caught e = true) errors.
Proof.
  induction 1 as [| | |budget w e w1 errors final w2 Hrun Hcaught _ [IHlen IHall]];
    cbn [length]; (split; [lia|]); auto.
Qed.

(** The loop of [save_key_with_retries], from the counter [first] on, with
    [budget] counters left, the last of which is [MAX_RETRIES]. *)
Lemma save_key_loop_run (obj : UserData) (save_key_locally : bool)
    (budget first : nat) (w : world) :
  (first + budget = MAX_RETRIES)%nat ->
  exists errors final w',
    retried_run (save_key obj save_key_locally) caught_by_retry RETRY_DELAY
      (S budget) w errors final w' /\
    save_key_loop (seq first (S budget)) obj save_key_locally w
    = (after_retries caught_by_retry (fun _ => Some true) (Some false) final, w').
Proof.
  revert first w. induction budget as [|budget IH]; intros first w Hlast.
  - cbn [seq save_key_loop]. unfold try_except, bind, ret.
    destruct (save_key obj save_key_locally w) as [[[]|e] w1] eqn:Hattempt.
    + exists [], (Ok tt), w1. split; [now apply run_done|reflexivity].
    + destruct (caught_by_retry e) eqn:Hcaught.
      * exists [], (Raise e), w1. split; [now apply run_exhausted|].
        cbn [after_retries]. rewrite Hcaught.
        replace (first =? MAX_RETRIES)%nat with true
          by (symmetry; apply Nat.eqb_eq; lia).
        reflexivity.
      * exists [], (Raise e), w1. split; [now apply run_fatal|].
        cbn [after_retries]. now rewrite Hcaught.
  - cbn [seq save_key_loop]. unfold try_except at 1. unfold bind at 1 2, ret at 1.
    destruct (save_key obj save_key_locally w) as [[[]|e] w1] eqn:Hattempt.
    + exists [], (Ok tt), w1. split; [now apply run_done|reflexivity].
    + destruct (caught_by_retry e) eqn:Hcaught.
      * replace (first =? MAX_RETRIES)%nat with false
          by (symmetry; apply Nat.eqb_neq; lia).
        destruct (IH (S first) (add_log (Slept RETRY_DELAY) w1))
          as (errors & final & w' & Hrun & Hloop); [lia|].
        exists (e :: errors), final, w'.
        split; [now apply run_retry with (w1 := w1)|].
        unfold sleep, bind, emit. cbn [seq] in Hloop. exact Hloop.
      * exists [], (Raise e), w1. split; [now apply run_fatal|].
        cbn [after_retries]. now rewrite Hcaught.
Qed.

Lemma load_key_loop_run (obj : secure_class) (data : pyvalue)
    (budget first : nat) (w : world) :
  (first + budget = MAX_RETRIES)%nat ->
  exists errors final w',
    retried_run (construct obj data) caught_by_retry RETRY_DELAY
      (S budget) w errors final w' /\
    load_key_loop (seq first (S budget)) obj data w
    = (after_retries caught_by_retry Some None final, w').
Proof.
  revert first w. induction budget as [|budget IH]; intros first w Hlast.
  - cbn [seq load_key_loop]. unfold try_except, bind, ret.
    destruct (construct obj data w) as [[o|e] w1] eqn:Hattempt.
    + exists [], (Ok o), w1. split; [now apply run_done|reflexivity].
    + destruct (caught_by_retry e) eqn:Hcaught.
      * exists [], (Raise e), w1. split; [now apply run_exhausted|].
        cbn [after_retries]. rewrite Hcaught.
        replace (first =? MAX_RETRIES)%nat with true
          by (symmetry; apply Nat.eqb_eq; lia).
        reflexivity.
      * exists [], (Raise e), w1. split; [now apply run_fatal|].
        cbn [after_retries]. now rewrite Hcaught.
  - cbn [seq load_key_loop]. unfold try_except at 1. unfold bind at 1 2, ret at 1.
    destruct (construct obj data w) as [[o|e] w1] eqn:Hattempt.
    + exists [], (Ok o), w1. split; [now apply run_done|reflexivity].
    + destruct (caught_by_retry e) eqn:Hcaught.
      * replace (first =? MAX_RETRIES)%nat with false
          by (symmetry; apply Nat.eqb_neq; lia).
        destruct (IH (S first) (add_log (Slept RETRY_DELAY) w1))
          as (errors & final & w' & Hrun & Hloop); [lia|].
        exists (e :: errors), final, w'.
        split; [now apply run_retry with (w1 := w1)|].
        unfold sleep, bind, emit. cbn [seq] in Hloop. exact Hloop.
      * exists [], (Raise e), w1. split; [now apply run_fatal|].
        cbn [after_retries]. now rewrite Hcaught.
Qed.

Lemma caught_by_retry_classes (e : exn) :
  caught_by_retry e = true <->
  (exists detail, e = APIServerError detail) \/ e = ConnectError \/
  e = ReadTimeout \/ e = ConnectTimeout \/ e = JSONDecodeError.
Proof.
  split.
  - destruct e; cbn; try discriminate; eauto 6.
  - intros [[d ->] | [-> | [-> | [-> | ->]]]]; reflexivity.
Qed.

(** C3, amended. Both retry wrappers make at most [C.MAX_RETRIES]
    attempts, with the pause [C.RETRY_DELAY] between two attempts, and an
    attempt is repeated after an [APIServerError] (HTTP 5xx, or an [error]
    field in the JSON body) and after a JSON decoding error just as after a
    connection error or a timeout. When the last attempt fails in one of
    these ways nothing is raised: [save_key_with_retries] returns [False]
    and [load_key_with_retries] returns [None]. Any other exception is
    raised at once. *)
Theorem retry_wrappers_policy (obj : UserData) (save_key_locally : bool)
    (cls : secure_class) (data : pyvalue) (w : world) :
  (0 < MAX_RETRIES)%nat ->
  (exists errors final w',
     retried_run (save_key obj save_key_locally) caught_by_retry RETRY_DELAY
       MAX_RETRIES w errors final w' /\
     (length errors < MAX_RETRIES)%nat /\
     save_key_with_retries obj save_key_locally w
     = (after_retries caught_by_retry (fun _ => Some true) (Some false) final,
        w')) /\
  (exists errors final w',
     retried_run (construct cls data) caught_by_retry RETRY_DELAY
       MAX_RETRIES w errors final w' /\
     (length errors < MAX_RETRIES)%nat /\
     load_key_with_retries cls data w
     = (after_retries caught_by_retry Some None final, w')) /\
  (forall e,
     caught_by_retry e = true <->
     (exists detail, e = APIServerError detail) \/ e = ConnectError \/
     e = ReadTimeout \/ e = ConnectTimeout \/ e = JSONDecodeError).
Proof.
  intros Hbudget.
  destruct MAX_RETRIES as [|budget] eqn:Hmax; [lia|].
  split; [|split].
  - destruct (save_key_loop_run obj save_key_locally budget 1 w)
      as (errors & final & w' & Hrun & Hloop); [lia|].
    exists errors, final, w'. split; [exact Hrun|]. split.
    + now apply retried_run_length in Hrun.
    + unfold save_key_with_retries. rewrite Hmax. exact Hloop.
  - destruct (load_key_loop_run cls data budget 1 w)
      as (errors & final & w' & Hrun & Hloop); [lia|].
    exists errors, final, w'. split; [exact Hrun|]. split.
    + now apply retried_run_length in Hrun.
    + unfold load_key_with_retries. rewrite Hmax. exact Hloop.
  - apply caught_by_retry_classes.
Qed.

End Retries.

Import Demo.

(** The claim as first stated fails: every attempt raises
    [APIServerError] for an HTTP 500, and [save_key_with_retries] sleeps and
    tries again twice, then returns [False] and raises nothing. *)
Lemma api_server_error_is_retried :
  fst (save_key demo_self false always_500)
  = Raise (APIServerError (BadStatus 500 "oops")) /\
  fst (save_key_with_retries demo_self false always_500)
  = Ok (Some false) /\
  log (snd (save_key_with_retries demo_self false always_500))
  = [ Requested "GET" "https://api.example/csrf-token" [] JNull;
      LoggedError (BadStatus 500 "oops");
      Slept 1;
      Requested "GET" "https://api.example/csrf-token" [] JNull;
      LoggedError (BadStatus 500 "oops");
      Slept 1;
      Requested "GET" "https://api.example/csrf-token" [] JNull;
      LoggedError (BadStatus 500 "oops") ].
Proof. vm_compute. repeat split. Qed.

Lemma retry_wrappers_policy_witness :
  exists errors final w',
    retried_run (save_key demo_self false) caught_by_retry RETRY_DELAY
      MAX_RETRIES server_error_then_ok errors final w' /\
    (length errors < MAX_RETRIES)%nat /\
    save_key_with_retries demo_self false server_error_then_ok
    = (after_retries caught_by_retry (fun _ => Some true) (Some false) final,
       w').
Proof.
  refine (proj1 (@retry_wrappers_policy demo_constants demo_library
                   demo_self false (SecureCookie "fantia") VNone
                   server_error_then_ok _)).
  vm_compute. lia.
Defined.

End Retries.

(** ** The handshake *)

Module Handshake.
Import SelfHealing.

Section Handshake.
Context `{C : Constants} `{L : Library}.

Ltac run_handshake :=
  unfold get_csrf_token, client_send, res_json, log_api_error,
    validate_schema, parse_data, APICsrfResponse, one_str_field;
  msimpl; cbn [parse_obj model_name model_of_fields py_contains py_getitem].

Ltac go :=
  repeat first
    [ progress msimpl
    | progress cbn [parse_obj model_name model_of_fields py_contains py_getitem]
    | match goal with
      | H : ?l = _ |- context [?l] => rewrite H
      end ];
  try reflexivity.

(** C6. [get_csrf_token], on a response of the service: a status other
    than 200 and 404 raises [APIServerError]; so does a JSON body with an
    [error] field, and a body without the [csrf_token] field; otherwise the
    [csrf_token] string is returned together with the cookies of the
    response; and these are the only responses on which it returns. *)
Theorem get_csrf_token_accepts (w : world) (res : response)
    (rest : list reply) :
  net w = Responds res :: rest ->
  (status_in (status_code res) [200; 404] = false ->
   fst (get_csrf_token w)
   = Raise (APIServerError (BadStatus (status_code res) (text res)))) /\
  (forall fields e,
     status_in (status_code res) [200; 404] = true ->
     json_loads (text res) = Some (JObj fields) ->
     assoc "error" fields = Some e ->
     fst (get_csrf_token w) = Raise (APIServerError (ErrorField e))) /\
  (forall fields,
     status_in (status_code res) [200; 404] = true ->
     json_loads (text res) = Some (JObj fields) ->
     assoc "error" fields = None ->
     (forall token, assoc "csrf_token" fields <> Some (JStr token)) ->
     fst (get_csrf_token w) = Raise (APIServerError InvalidFormat)) /\
  (forall fields token,
     status_in (status_code res) [200; 404] = true ->
     json_loads (text res) = Some (JObj fields) ->
     assoc "error" fields = None ->
     assoc "csrf_token" fields = Some (JStr token) ->
     fst (get_csrf_token w) = Ok (JStr token, cookies res)) /\
  (forall csrf_token session,
     fst (get_csrf_token w) = Ok (csrf_token, session) ->
     status_in (status_code res) [200; 404] = true /\
     session = cookies res /\
     exists fields token,
       json_loads (text res) = Some (JObj fields) /\
       assoc "error" fields = None /\
       assoc "csrf_token" fields = Some (JStr token) /\
       csrf_token = JStr token).
Proof.
  intros Hnet. split; [|split; [|split; [|split]]].
  - intros Hstatus. run_handshake. go.
  - intros fields e Hstatus Hjson Herror. run_handshake. go.
  - intros fields Hstatus Hjson Herror Hmissing. run_handshake. go.
    destruct (assoc "csrf_token" fields) as [[| | |token| |]|] eqn:Htoken;
      try reflexivity. now destruct (Hmissing token).
  - intros fields token Hstatus Hjson Herror Htoken. run_handshake. go.
  - intros csrf_token session.
    unfold get_csrf_token, client_send, res_json, log_api_error.
    msimpl. rewrite Hnet.
    destruct (status_in (status_code res) [200; 404]); [|discriminate].
    wsimpl.
    destruct (json_loads (text res)) as [json_data|] eqn:Hjson;
      [|discriminate].
    destruct (py_contains "error" json_data) as [has_error|e] eqn:Herror;
      [|discriminate].
    destruct has_error.
    { destruct (py_getitem json_data "error"); discriminate. }
    match goal with
    | |- context [validate_schema ?m ?j ?w0] =>
        destruct (validate_schema_run m j w0) as (evs & ->)
    end.
    destruct (validated APICsrfResponse json_data) as [[o|]|e] eqn:Hvalid;
      try discriminate.
    destruct json_data as [| | | | |fields]; try discriminate.
    cbn in Herror, Hvalid.
    destruct (assoc "error" fields) eqn:Hno_error; [discriminate|].
    destruct (assoc "csrf_token" fields) as [[| | |token| |]|] eqn:Htoken;
      try discriminate.
    cbn [py_getitem]. rewrite Htoken. intros [= <- <-]. eauto 10.
Qed.

End Handshake.

Import Demo.

Lemma get_csrf_token_witness :
  fst (get_csrf_token
         (with_replies [Responds (ok_response "{csrf_token: t0}")] empty_world))
  = Ok (JStr "t0", [("session", "s0")]).
Proof.
  apply (proj1 (proj2 (proj2 (proj2
           (@get_csrf_token_accepts demo_constants demo_library
              (with_replies [Responds (ok_response "{csrf_token: t0}")]
                 empty_world)
              (ok_response "{csrf_token: t0}") [] eq_refl))))
           [("csrf_token", JStr "t0")] "t0"); reflexivity.
Defined.

End Handshake.

(** ** Which files a computation reads and changes *)

Module Frames.

Section Frames.
Context `{C : Constants} `{L : Library}.

(** *** Paths left unchanged *)

Section TouchesOnly.
Variable P : path -> Prop.

Lemma touches_ret {A} (a : A) : touches_only P (ret a).
Proof. now intros w p _. Qed.

Lemma touches_raise {A} (e : exn) : touches_only P (@raise A e).
Proof. now intros w p _. Qed.

Lemma touches_lift {A} (r : outcome A) : touches_only P (lift r).
Proof. now intros w p _. Qed.

Lemma touches_emit (e : event) : touches_only P (emit e).
Proof. now intros w p _. Qed.

Lemma touches_fresh : touches_only P fresh.
Proof. now intros w p _. Qed.

Lemma touches_is_file (q : path) : touches_only P (is_file q).
Proof. now intros w p _. Qed.

Lemma touches_is_dir (q : path) : touches_only P (is_dir q).
Proof. now intros w p _. Qed.

Lemma touches_read_text (q : path) : touches_only P (read_text q).
Proof. intros w p _. unfold read_text. now destruct (fs w !! q) as [[]|]. Qed.

Lemma touches_client_send (method url : string) cookies (body : json) :
  touches_only P (client_send method url cookies body).
Proof.
  intros w p _. unfold client_send. cbn.
  now destruct (net w) as [|[]].
Qed.

Lemma touches_requests_get (url : string) :
  touches_only P (requests_get url).
Proof.
  intros w p _. unfold requests_get. cbn.
  now destruct (net w) as [|[]].
Qed.

Lemma touches_read_bytes (q : path) : touches_only P (read_bytes q).
Proof. intros w p _. unfold read_bytes. now destruct (fs w !! q) as [[]|]. Qed.

Lemma touches_write_text (q : path) (s : string) :
  P q -> touches_only P (write_text q s).
Proof.
  intros Hq w p Hp. unfold write_text.
  destruct (fs w !! q) as [[]|]; cbn; try reflexivity;
    apply lookup_insert_ne; congruence.
Qed.

Lemma touches_unlink (q : path) : P q -> touches_only P (unlink q).
Proof.
  intros Hq w p Hp. unfold unlink.
  destruct (fs w !! q) as [[]|]; cbn; try reflexivity.
  apply lookup_delete_ne. congruence.
Qed.

Lemma touches_bind {A B} (m : M A) (k : A -> M B) :
  touches_only P m -> (forall a, touches_only P (k a)) ->
  touches_only P (bind m k).
Proof.
  intros Hm Hk w p Hp. unfold bind. specialize (Hm w p Hp).
  destruct (m w) as [[a|e] w1]; cbn in *; [|exact Hm].
  rewrite (Hk a w1 p Hp). exact Hm.
Qed.

Lemma touches_try_except {A} (m : M A) caught (handler : exn -> M A) :
  touches_only P m -> (forall e, touches_only P (handler e)) ->
  touches_only P (try_except m caught handler).
Proof.
  intros Hm Hh w p Hp. unfold try_except. specialize (Hm w p Hp).
  destruct (m w) as [[a|e] w1]; cbn in *; [exact Hm|].
  destruct (caught e); [|exact Hm].
  rewrite (Hh e w1 p Hp). exact Hm.
Qed.

End TouchesOnly.

Ltac touches_step :=
  first
    [ apply touches_ret | apply touches_raise | apply touches_lift
    | apply touches_emit | apply touches_fresh | apply touches_is_file
    | apply touches_is_dir | apply touches_read_text
    | apply touches_client_send | apply touches_requests_get
    | apply touches_read_bytes
    | apply touches_bind; [| intros ?]
    | apply touches_try_except; [| intros ?]
    | match goal with
      | |- touches_only _ (match ?x with _ => _ end) => destruct x
      end ].

Ltac touches := repeat touches_step.

Lemma touches_validate_schema P (model : BaseModel) (j : json) :
  touches_only P (validate_schema model j).
Proof. unfold validate_schema. touches. Qed.

Lemma touches_log_api_error P {A} (d : api_error) :
  touches_only P (@log_api_error A d).
Proof. unfold log_api_error. touches. Qed.

Lemma touches_res_json P (res : response) : touches_only P (res_json res).
Proof. unfold res_json. touches. Qed.

Lemma touches_get_csrf_token P : touches_only P get_csrf_token.
Proof.
  unfold get_csrf_token.
  repeat first [touches_step | apply touches_validate_schema
               | apply touches_log_api_error | apply touches_res_json].
Qed.

Lemma touches_rsa_encrypt P (kwargs : keywords) :
  touches_only P (rsa_encrypt kwargs).
Proof.
  unfold rsa_encrypt.
  repeat first [touches_step | apply touches_validate_schema
               | apply touches_res_json].
Qed.

Lemma touches_rsa_decrypt P (kwargs : keywords) :
  touches_only P (rsa_decrypt kwargs).
Proof. unfold rsa_decrypt. touches. Qed.

Lemma touches_prepare P (self : UserData) (v : pyvalue) :
  touches_only P (prepare_data_for_transmission self v).
Proof.
  unfold prepare_data_for_transmission.
  repeat first [touches_step | apply touches_rsa_encrypt].
Qed.

Lemma touches_read_api_response P (self : UserData) (j : json) :
  touches_only P (read_api_response self j).
Proof.
  unfold read_api_response, format_private_key.
  repeat first [touches_step | apply touches_rsa_decrypt].
Qed.

(** [save_key] changes the key file alone when asked to save locally, and
    the token document alone otherwise. *)
Lemma touches_save_key (self : UserData) (save_locally : bool) :
  touches_only
    (fun p => p = if save_locally then SECRET_KEY_PATH
                  else KEY_ID_TOKEN_JSON_PATH)
    (save_key self save_locally).
Proof.
  unfold save_key, write_bytes, format_private_key.
  destruct save_locally.
  - repeat first [touches_step | now apply touches_write_text].
  - repeat first
      [ touches_step | apply touches_validate_schema
      | apply touches_log_api_error | apply touches_get_csrf_token
      | apply touches_res_json | apply touches_rsa_decrypt
      | apply touches_prepare | now apply touches_write_text ].
Qed.

(** *** Paths neither read nor changed *)

Section Ignores.
Variable p : path.

Lemma ignores_ret {A} (a : A) : ignores p (ret a).
Proof. now intros w n. Qed.

Lemma ignores_raise {A} (e : exn) : ignores p (@raise A e).
Proof. now intros w n. Qed.

Lemma ignores_lift {A} (r : outcome A) : ignores p (lift r).
Proof. now intros w n. Qed.

Lemma ignores_emit (e : event) : ignores p (emit e).
Proof. now intros w n. Qed.

Lemma ignores_fresh : ignores p fresh.
Proof. now intros w n. Qed.

Lemma ignores_is_file (q : path) : q <> p -> ignores p (is_file q).
Proof.
  intros Hq w n. unfold is_file. cbn.
  now rewrite lookup_insert_ne by congruence.
Qed.

Lemma ignores_read_text (q : path) : q <> p -> ignores p (read_text q).
Proof.
  intros Hq w n. unfold read_text. cbn.
  rewrite lookup_insert_ne by congruence.
  now destruct (fs w !! q) as [[]|].
Qed.

Lemma ignores_unlink (q : path) : q <> p -> ignores p (unlink q).
Proof.
  intros Hq w n. unfold unlink. cbn.
  rewrite lookup_insert_ne by congruence.
  destruct (fs w !! q) as [[]|]; cbn; try reflexivity.
  unfold set_fs. cbn. now rewrite delete_insert_ne by congruence.
Qed.

Lemma ignores_client_send (method url : string) cookies (body : json) :
  ignores p (client_send method url cookies body).
Proof.
  intros w n. unfold client_send. cbn.
  now destruct (net w) as [|[]].
Qed.

Lemma ignores_requests_get (url : string) : ignores p (requests_get url).
Proof.
  intros w n. unfold requests_get. cbn.
  now destruct (net w) as [|[]].
Qed.

Lemma ignores_bind {A B} (m : M A) (k : A -> M B) :
  ignores p m -> (forall a, ignores p (k a)) -> ignores p (bind m k).
Proof.
  intros Hm Hk w n. unfold bind. rewrite (Hm w n).
  destruct (m w) as [[a|e] w1]; cbn; [apply Hk | reflexivity].
Qed.

Lemma ignores_try_except {A} (m : M A) caught (handler : exn -> M A) :
  ignores p m -> (forall e, ignores p (handler e)) ->
  ignores p (try_except m caught handler).
Proof.
  intros Hm Hh w n. unfold try_except. rewrite (Hm w n).
  destruct (m w) as [[a|e] w1]; cbn; [reflexivity|].
  destruct (caught e); [apply Hh | reflexivity].
Qed.

End Ignores.

Ltac ignores_step :=
  first
    [ apply ignores_ret | apply ignores_raise | apply ignores_lift
    | apply ignores_emit | apply ignores_fresh
    | apply ignores_is_file; discriminate
    | apply ignores_read_text; discriminate
    | apply ignores_unlink; discriminate
    | apply ignores_client_send | apply ignores_requests_get
    | apply ignores_bind; [| intros ?]
    | apply ignores_try_except; [| intros ?]
    | match goal with
      | |- ignores _ (match ?x with _ => _ end) => destruct x
      end ].

Ltac ignores := repeat ignores_step.

(** From the token document on, key resolution neither reads nor changes
    the key file. *)
Lemma ignores_load_key_from_token (self : UserData) :
  ignores SECRET_KEY_PATH (load_key_from_token self).
Proof.
  unfold load_key_from_token, read_key_id_token, new_chacha20_key,
    get_csrf_token, prepare_data_for_transmission, read_api_response,
    format_private_key, as_bytes.
  repeat first
    [ ignores_step
    | progress unfold res_json, log_api_error, validate_schema,
        rsa_encrypt, rsa_decrypt ].
Qed.

End Frames.
End Frames.

(** ** Key resolution *)

Module KeyResolution.
Import EnvelopeFacts Frames.

Section KeyResolution.
Context `{C : Constants} `{L : Library}.

Ltac go :=
  repeat first
    [ progress msimpl
    | progress cbn [parse_obj model_name model_of_fields py_contains
                    py_getitem get_attr]
    | match goal with
      | H : ?l = _ |- context [?l] => rewrite H
      end ];
  try reflexivity.

(** A handshake that succeeds, with the world it leaves. *)
Lemma get_csrf_token_ok (w : world) (res : response) (rest : list reply)
    (fields : list (string * json)) (token : string) :
  net w = Responds res :: rest ->
  status_in (status_code res) [200; 404] = true ->
  json_loads (text res) = Some (JObj fields) ->
  assoc "error" fields = None ->
  assoc "csrf_token" fields = Some (JStr token) ->
  get_csrf_token w
  = (Ok (JStr token, cookies res),
     set_net rest
       (add_log (Requested "GET" (API_URL ++ "/csrf-token") [] JNull) w)).
Proof.
  intros Hnet Hstatus Hjson Herror Htoken.
  unfold get_csrf_token, client_send, res_json, log_api_error,
    validate_schema, parse_data, APICsrfResponse, one_str_field.
  go.
Qed.

(** The call of [rsa_encrypt] in [prepare_data_for_transmission] names a
    parameter [digest_method] that the function does not have: the call
    raises before the body of [rsa_encrypt] runs. *)
Lemma prepare_data_for_transmission_raises (self : UserData) (data : pyvalue)
    (w : world) :
  prepare_data_for_transmission self data w
  = (Raise (TypeError
       "rsa_encrypt() got an unexpected keyword argument 'digest_method'"), w).
Proof. reflexivity. Qed.

(** Likewise a call of [rsa_decrypt] that names the parameter
    [private_key] after the ciphertext. *)
Lemma rsa_decrypt_raises (ciphertext key : argument) (rest : keywords)
    (w : world) :
  rsa_decrypt (("ciphertext", ciphertext) :: ("private_key", key) :: rest) w
  = (Raise (TypeError
       "rsa_decrypt() got an unexpected keyword argument 'private_key'"), w).
Proof. reflexivity. Qed.

Lemma world_with_key_file (w : world) (n : node) :
  fs w !! SECRET_KEY_PATH = Some n ->
  w = set_fs (insert SECRET_KEY_PATH n) (set_fs (delete SECRET_KEY_PATH) w).
Proof.
  intros Hn. destruct w as [f nt sd lg]. unfold set_fs. cbn in *.
  f_equal. rewrite insert_delete_eq. symmetry. now apply insert_id.
Qed.

(** C4. A key file that exists and holds exactly 32 bytes is returned as
    the key, whatever the token document and the network are, and the
    world is left as it is (no request is made). A key file of any other
    length is ignored: resolution ends as it does when the file is absent,
    going on from the token document, and the file stays. *)
Theorem local_key_file_is_authoritative (self : UserData) (w : world)
    (content : string) :
  fs w !! SECRET_KEY_PATH = Some (File content) ->
  ((length (list_byte_of_string content) = 32)%nat ->
   load_key self w = (Ok (list_byte_of_string content), w)) /\
  ((length (list_byte_of_string content) <> 32)%nat ->
   let absent := set_fs (delete SECRET_KEY_PATH) w in
   load_key self absent = load_key_from_token self absent /\
   load_key self w
   = (fst (load_key self absent),
      set_fs (insert SECRET_KEY_PATH (File content))
        (snd (load_key self absent)))).
Proof.
  intros Hfile. split.
  - intros Hlen. apply Nat.eqb_eq in Hlen. unfold load_key, read_bytes. go.
  - intros Hlen absent.
    assert (Habsent : load_key self absent = load_key_from_token self absent).
    { unfold load_key. msimpl. subst absent. wsimpl.
      now rewrite lookup_delete_eq. }
    split; [exact Habsent|]. rewrite Habsent.
    rewrite <- (ignores_load_key_from_token self absent (File content)).
    subst absent. rewrite <- (world_with_key_file w (File content) Hfile).
    apply Nat.eqb_neq in Hlen. unfold load_key, read_bytes. go.
Qed.

(** C5. With no local key of 32 bytes, a token document holding a token
    and a handshake that succeeds, key resolution never reaches the get-key
    exchange, whatever the service would answer to it (HTTP 404 included):
    wrapping the token raises [TypeError], since [rsa_encrypt] is called
    with a keyword it does not take. The error is raised to the caller, the
    token document stays, no key is generated, and the handshake is the one
    request made. *)
Theorem token_is_never_exchanged (self : UserData) (w : world)
    (raw token_text token csrf : string)
    (fields csrf_fields : list (string * json))
    (handshake : response) (rest : list reply) :
  (forall content,
     fs w !! SECRET_KEY_PATH = Some (File content) ->
     (length (list_byte_of_string content) <> 32)%nat) ->
  fs w !! KEY_ID_TOKEN_JSON_PATH = Some (File raw) ->
  text_of_file raw = Ok token_text ->
  json_loads token_text = Some (JObj fields) ->
  assoc "key_id_token" fields = Some (JStr token) ->
  net w = Responds handshake :: rest ->
  status_in (status_code handshake) [200; 404] = true ->
  json_loads (text handshake) = Some (JObj csrf_fields) ->
  assoc "error" csrf_fields = None ->
  assoc "csrf_token" csrf_fields = Some (JStr csrf) ->
  load_key self w
  = (Raise (TypeError
       "rsa_encrypt() got an unexpected keyword argument 'digest_method'"),
     {| fs := fs w;
        net := rest;
        seed := seed w;
        log := log w ++
          [ Requested "GET" (API_URL ++ "/csrf-token") [] JNull ] |}).
Proof.
  intros Hlocal Htoken Hraw Hjson Hfield Hnet Hstatus Hcsrf_json Hno_error
    Hcsrf.
  assert (Hresident : load_key self w = load_key_from_token self w).
  { destruct (fs w !! SECRET_KEY_PATH) as [[|content]|] eqn:Hkey;
      unfold load_key, read_bytes; go.
    specialize (Hlocal content eq_refl). apply Nat.eqb_neq in Hlocal.
    now rewrite Hlocal. }
  rewrite Hresident.
  pose proof (get_csrf_token_ok w handshake rest
                csrf_fields csrf Hnet Hstatus Hcsrf_json Hno_error Hcsrf)
    as Hhandshake.
  unfold load_key_from_token, read_key_id_token,
    validate_schema, parse_data, KeyIdToken, one_str_field.
  repeat first
    [ progress msimpl
    | progress cbn [parse_obj model_name model_of_fields get_attr assoc
                    String.eqb Ascii.eqb Bool.eqb]
    | rewrite prepare_data_for_transmission_raises
    | match goal with
      | H : ?l = _ |- context [?l] => rewrite H
      end ].
  reflexivity.
Qed.

End KeyResolution.

Import Demo.

Lemma local_key_file_witness :
  let absent := set_fs (delete SECRET_KEY_PATH) short_key_world in
  load_key demo_self absent = load_key_from_token demo_self absent /\
  load_key demo_self short_key_world
  = (fst (load_key demo_self absent),
     set_fs (insert SECRET_KEY_PATH (File "0123456789abcdef0123456789abcde"))
       (snd (load_key demo_self absent))).
Proof.
  apply (proj2 (@local_key_file_is_authoritative demo_constants demo_library
                  demo_self short_key_world
                  "0123456789abcdef0123456789abcde" eq_refl)).
  vm_compute. lia.
Defined.

(** A key file of 32 bytes is the key, with a stale token document and a
    reachable service left aside. *)
Example resident_key_wins :
  let w := with_file SECRET_KEY_PATH "0123456789abcdef0123456789abcdef"
             stale_token_world in
  load_key demo_self w
  = (Ok (list_byte_of_string "0123456789abcdef0123456789abcdef"), w).
Proof. reflexivity. Qed.

Lemma token_is_never_exchanged_witness :
  load_key demo_self stale_token_world
  = (Raise (TypeError
       "rsa_encrypt() got an unexpected keyword argument 'digest_method'"),
     {| fs := fs stale_token_world;
        net := [Responds (status_response 404 EmptyString)];
        seed := seed stale_token_world;
        log := log stale_token_world ++
          [ Requested "GET" (API_URL ++ "/csrf-token") [] JNull ] |}).
Proof.
  apply (@token_is_never_exchanged demo_constants demo_library demo_self
           stale_token_world "{key_id_token: kid}" "{key_id_token: kid}"
           "kid" "t0"
           [("key_id_token", JStr "kid")] [("csrf_token", JStr "t0")]
           (ok_response "{csrf_token: t0}")
           [Responds (status_response 404 EmptyString)]).
  - intros content Hfile. vm_compute in Hfile. discriminate.
  - reflexivity.
  - reflexivity.
  - reflexivity.
  - reflexivity.
  - reflexivity.
  - reflexivity.
  - reflexivity.
  - reflexivity.
  - reflexivity.
Defined.

End KeyResolution.

(** ** Storing the key *)

Module KeyStorage.
Import Frames.

Section KeyStorage.
Context `{C : Constants} `{L : Library}.

Ltac go :=
  repeat first
    [ progress msimpl
    | match goal with
      | H : ?l = _ |- context [?l] => rewrite H
      end ];
  try reflexivity.

(** C10. [save_key] never establishes both forms of key storage. With a
    token document in place it writes nothing and makes no request, even
    when asked to save locally; with the current key in the key file
    likewise. In every case it changes at most one path, the key file when
    [save_locally] is set and the token document otherwise, so at most one
    of the two has been created by it. *)
Theorem save_key_establishes_one_form (self : UserData) (save_locally : bool)
    (w : world) :
  (forall token_text,
     fs w !! KEY_ID_TOKEN_JSON_PATH = Some (File token_text) ->
     save_key self save_locally w = (Ok tt, w)) /\
  (forall content,
     fs w !! SECRET_KEY_PATH = Some (File content) ->
     list_byte_of_string content = secret_key self ->
     save_key self save_locally w = (Ok tt, w)) /\
  (forall p,
     p <> (if save_locally then SECRET_KEY_PATH else KEY_ID_TOKEN_JSON_PATH) ->
     fs (snd (save_key self save_locally w)) !! p = fs w !! p) /\
  (fs (snd (save_key self save_locally w)) !! SECRET_KEY_PATH
   = fs w !! SECRET_KEY_PATH \/
   fs (snd (save_key self save_locally w)) !! KEY_ID_TOKEN_JSON_PATH
   = fs w !! KEY_ID_TOKEN_JSON_PATH).
Proof.
  assert (Hframe : forall p,
            p <> (if save_locally then SECRET_KEY_PATH
                  else KEY_ID_TOKEN_JSON_PATH) ->
            fs (snd (save_key self save_locally w)) !! p = fs w !! p).
  { intros p Hp. now apply (touches_save_key self save_locally w p). }
  split; [|split; [|split]].
  - intros token_text Htoken. unfold save_key.
    destruct (fs w !! SECRET_KEY_PATH) as [[|content]|] eqn:Hkey; go;
      destruct (bool_decide _); go.
  - intros content Hkey Hsame. unfold save_key. go.
    rewrite bool_decide_eq_true_2 by reflexivity. reflexivity.
  - exact Hframe.
  - destruct save_locally; [right | left]; now apply Hframe.
Qed.

End KeyStorage.

Import Demo.

Lemma save_key_witness :
  save_key demo_self true
    (with_file KEY_ID_TOKEN_JSON_PATH "{key_id_token: kid}" empty_world)
  = (Ok tt, with_file KEY_ID_TOKEN_JSON_PATH "{key_id_token: kid}" empty_world).
Proof.
  apply (proj1 (@save_key_establishes_one_form demo_constants demo_library
                  demo_self true
                  (with_file KEY_ID_TOKEN_JSON_PATH "{key_id_token: kid}"
                     empty_world))
           "{key_id_token: kid}").
  reflexivity.
Defined.

End KeyStorage.

(** ** Kinds of change of the world *)

Module Effects.

Section Effects.
Context `{Ch : Changes}.

Lemma effect_ret {A} (a : A) : effect changes (ret a).
Proof. intros w. apply changes_refl. Qed.

Lemma effect_raise {A} (e : exn) : effect changes (@raise A e).
Proof. intros w. apply changes_refl. Qed.

Lemma effect_lift {A} (r : outcome A) : effect changes (lift r).
Proof. intros w. apply changes_refl. Qed.

Lemma effect_emit (e : event) : logs e -> effect changes (emit e).
Proof. intros He w. now apply changes_log. Qed.

Lemma effect_fresh : effect changes fresh.
Proof. intros w. apply changes_seed. Qed.

Lemma effect_is_file (p : path) : effect changes (is_file p).
Proof. intros w. apply changes_refl. Qed.

Lemma effect_is_dir (p : path) : effect changes (is_dir p).
Proof. intros w. apply changes_refl. Qed.

Lemma effect_read_text (p : path) : effect changes (read_text p).
Proof.
  intros w. unfold read_text.
  destruct (fs w !! p) as [[]|]; apply changes_refl.
Qed.

Lemma effect_read_bytes (p : path) : effect changes (read_bytes p).
Proof.
  intros w. unfold read_bytes.
  destruct (fs w !! p) as [[]|]; apply changes_refl.
Qed.

Lemma effect_write_text (p : path) (s : string) :
  writes p -> effect changes (write_text p s).
Proof.
  intros Hp w. unfold write_text.
  destruct (fs w !! p) as [[]|]; cbn [snd];
    first [apply changes_refl | now apply changes_write].
Qed.

Lemma effect_unlink (p : path) : deletes p -> effect changes (unlink p).
Proof.
  intros Hp w. unfold unlink.
  destruct (fs w !! p) as [[]|]; cbn [snd];
    first [apply changes_refl | now apply changes_delete].
Qed.

Lemma effect_client_send (method url : string) cookies (body : json) :
  logs (Requested method url cookies body) ->
  effect changes (client_send method url cookies body).
Proof.
  intros He w. unfold client_send. cbv zeta.
  pose proof (changes_log w _ He) as Hlog.
  destruct (net (add_log _ w)) as [|[]]; cbn [snd]; try exact Hlog;
    (eapply changes_trans; [exact Hlog | apply changes_net]).
Qed.

Lemma effect_requests_get (url : string) :
  logs (Requested "GET" url [] JNull) ->
  effect changes (requests_get url).
Proof.
  intros He w. unfold requests_get. cbv zeta.
  pose proof (changes_log w _ He) as Hlog.
  destruct (net (add_log _ w)) as [|[]]; cbn [snd]; try exact Hlog;
    (eapply changes_trans; [exact Hlog | apply changes_net]).
Qed.

Lemma effect_bind {A B} (m : M A) (k : A -> M B) :
  effect changes m -> (forall a, effect changes (k a)) ->
  effect changes (bind m k).
Proof.
  intros Hm Hk w. unfold bind. specialize (Hm w).
  destruct (m w) as [[a|e] w1]; cbn [snd] in *; [|exact Hm].
  eapply changes_trans; [exact Hm | apply Hk].
Qed.

Lemma effect_try_except {A} (m : M A) caught (handler : exn -> M A) :
  effect changes m -> (forall e, effect changes (handler e)) ->
  effect changes (try_except m caught handler).
Proof.
  intros Hm Hh w. unfold try_except. specialize (Hm w).
  destruct (m w) as [[a|e] w1]; cbn [snd] in *; [exact Hm|].
  destruct (caught e); [|exact Hm].
  eapply changes_trans; [exact Hm | apply Hh].
Qed.

End Effects.

Ltac effect_step side :=
  first
    [ apply effect_ret | apply effect_raise | apply effect_lift
    | apply effect_fresh | apply effect_is_file | apply effect_is_dir
    | apply effect_read_text | apply effect_read_bytes
    | apply effect_emit; side
    | apply effect_client_send; side
    | apply effect_requests_get; side
    | apply effect_unlink; side
    | apply effect_write_text; side
    | apply effect_bind; [| intros ?]
    | apply effect_try_except; [| intros ?]
    | match goal with
      | |- effect _ (match ?x with _ => _ end) => destruct x
      end ].

(** The computations of the vault but for the generation of an RSA key,
    under changes that allow every other log line and every deletion. *)
Section VaultEffects.
Context `{C : Constants} `{L : Library} `{Ch : Changes}.
Hypothesis logs_but_keys : forall e, is_key_generation e = false -> logs e.
Hypothesis deletes_all : forall p, deletes p.

Ltac side := first [apply logs_but_keys; reflexivity | apply deletes_all].

Lemma effect_validate_schema (model : BaseModel) (j : json) :
  effect changes (validate_schema model j).
Proof. unfold validate_schema. repeat effect_step side. Qed.

Lemma effect_log_api_error {A} (d : api_error) :
  effect changes (@log_api_error A d).
Proof. unfold log_api_error. repeat effect_step side. Qed.

Lemma effect_res_json (res : response) : effect changes (res_json res).
Proof. unfold res_json. repeat effect_step side. Qed.

Ltac vault_step :=
  first
    [ effect_step side | apply effect_validate_schema
    | apply effect_log_api_error | apply effect_res_json ].

Lemma effect_get_csrf_token : effect changes get_csrf_token.
Proof. unfold get_csrf_token. repeat vault_step. Qed.

Lemma effect_load_key (self : UserData) : effect changes (load_key self).
Proof.
  unfold load_key, load_key_from_token, read_key_id_token, new_chacha20_key,
    prepare_data_for_transmission, read_api_response,
    format_private_key, as_bytes, rsa_encrypt, rsa_decrypt.
  repeat first [vault_step | apply effect_get_csrf_token].
Qed.

Lemma effect_decrypt_data (self : UserData) (decode : bool)
    (schema : option BaseModel) (regex : option Pattern) :
  effect changes (decrypt_data self decode schema regex).
Proof. unfold decrypt_data. repeat vault_step. Qed.

Lemma effect_load_data_method (self : UserData) :
  effect changes (load_data_method self).
Proof.
  unfold load_data_method. destruct (cls self); apply effect_decrypt_data.
Qed.

Hypothesis writes_config : writes CONFIG_JSON_FILE_PATH.

Lemma effect_load_client_digest_method :
  effect changes load_client_digest_method.
Proof.
  unfold load_client_digest_method, load_configs, edit_configs.
  repeat first [vault_step | apply effect_write_text; exact writes_config].
Qed.

End VaultEffects.

(** The count of generated keys is kept. *)
#[global] Instance keeps_key_count : Changes.
Proof.
  refine
    {| changes w w' := generated_keys (log w') = generated_keys (log w);
       logs e := is_key_generation e = false;
       deletes _ := True;
       writes _ := True |}.
  - reflexivity.
  - intros w1 w2 w3 H12 H23. congruence.
  - intros w e He. unfold add_log, generated_keys. cbn [log].
    rewrite List.filter_app, length_app. cbn [List.filter]. rewrite He.
    cbn [length]. lia.
  - reflexivity.
  - reflexivity.
  - reflexivity.
  - reflexivity.
Defined.

(** No file is created or rewritten: every path is as before, or gone. *)
#[global] Instance only_deletes : Changes.
Proof.
  refine
    {| changes w w' :=
         forall p, fs w' !! p = fs w !! p \/ fs w' !! p = None;
       logs _ := True;
       deletes _ := True;
       writes _ := False |}.
  - intros w p. now left.
  - intros w1 w2 w3 H12 H23 p.
    destruct (H23 p) as [-> | ->]; auto.
  - intros w e _ p. now left.
  - intros w n p. now left.
  - intros w p. now left.
  - intros w q _ p. cbn [fs set_fs].
    destruct (decide (q = p)) as [->|Hne].
    + right. apply lookup_delete_eq.
    + left. now apply lookup_delete_ne.
  - intros w q n [].
Defined.

End Effects.

(** ** The transport key pair *)

Module TransportKeys.
Import SelfHealing Effects.

Section TransportKeys.
Context `{C : Constants} `{L : Library}.

Lemma fsd_is_dir (p : path) : fs_determined (is_dir p).
Proof. intros w w' H. unfold is_dir. cbn. now rewrite H. Qed.

Lemma fsd_write_text (p : path) (s : string) : fs_determined (write_text p s).
Proof.
  intros w w' H. unfold write_text. rewrite H.
  destruct (fs w' !! p) as [[]|]; cbn; auto; now rewrite H.
Qed.

(** The configuration step reads and writes files only. *)
Lemma fsd_load_client_digest_method :
  fs_determined load_client_digest_method.
Proof.
  unfold load_client_digest_method, load_configs, edit_configs.
  repeat first
    [ apply fsd_ret | apply fsd_raise | apply fsd_is_file | apply fsd_is_dir
    | apply fsd_read_text | apply fsd_write_text
    | apply fsd_validate_schema
    | apply fsd_bind; [| intros ?]
    | match goal with
      | |- fs_determined (match ?x with _ => _ end) => destruct x
      end ].
Qed.

Lemma UserData_init_steps (c : secure_class) (data_path : path)
    (data : pyvalue) (w : world) :
  UserData_init c data_path data w
  = after_key_generation c data_path data
      (private_bytes (rsa_generate_private_key 65537 2048 (seed w)),
       public_bytes (rsa_generate_private_key 65537 2048 (seed w)))
      (add_log (GeneratedRSAKey 65537 2048) (next_seed w)).
Proof. reflexivity. Qed.

Lemma keeps_key_count_after_key_generation (c : secure_class)
    (data_path : path) (data : pyvalue) (key_pair : list byte * list byte) :
  effect (@changes keeps_key_count)
    (after_key_generation c data_path data key_pair).
Proof.
  unfold after_key_generation.
  repeat first
    [ apply (effect_load_client_digest_method (Ch := keeps_key_count));
        first [now intros | exact I]
    | apply (effect_load_key (Ch := keeps_key_count)); now intros
    | apply (effect_load_data_method (Ch := keeps_key_count)); now intros
    | effect_step fail ].
Qed.

Lemma only_deletes_after_configuration (self : UserData) (data : pyvalue) :
  effect (@changes only_deletes)
    (secret_key <- load_key self ;;
     let self := with_secret_key self secret_key in
     if is_None data then
       loaded <- load_data_method self ;; ret (with_data self loaded)
     else ret (with_data self data)).
Proof.
  repeat first
    [ apply (effect_load_key (Ch := only_deletes)); intros; exact I
    | apply (effect_load_data_method (Ch := only_deletes)); intros; exact I
    | progress cbv zeta
    | effect_step fail ].
Qed.

Lemma snd_bind {A B} (m : M A) (k : A -> M B) (w : world) :
  (snd (bind m k w) = snd (m w) /\ exists e, fst (m w) = Raise e) \/
  (exists a, fst (m w) = Ok a /\ snd (bind m k w) = snd (k a (snd (m w)))).
Proof.
  unfold bind. destruct (m w) as [[a|e] w1]; cbn [fst snd]; eauto.
Qed.

Ltac split_bind :=
  match goal with
  | |- context [snd (bind ?m ?k ?w)] =>
      destruct (snd_bind m k w) as [[-> _] | (? & _ & ->)]
  end.

Lemma files_after_key_generation (c : secure_class) (data_path : path)
    (data : pyvalue) (key_pair : list byte * list byte) (w : world)
    (p : path) :
  let final := snd (after_key_generation c data_path data key_pair w) in
  fs final !! p = fs w !! p \/
  fs final !! p = fs (snd (load_client_digest_method w)) !! p \/
  fs final !! p = None.
Proof.
  cbv zeta. unfold after_key_generation.
  split_bind; [now left|]. cbn [lift snd].
  split_bind; [now left|]. cbn [lift snd].
  split_bind; [right; now left|].
  cbv zeta.
  match goal with
  | |- context [snd (bind (load_key ?self) _ _)] =>
      pose proof (only_deletes_after_configuration self data
                    (snd (load_client_digest_method w)) p) as Hdel
  end.
  cbn [changes only_deletes] in Hdel.
  destruct Hdel as [Hsame | Hgone]; [right; left; exact Hsame|].
  right; right; exact Hgone.
Qed.

(** *** The files do not depend on the key pair *)

Lemma bind_ext {A B} (m : M A) (k k' : A -> M B) (w : world) :
  (forall a w', k a w' = k' a w') -> bind m k w = bind m k' w.
Proof.
  intros H. unfold bind. destruct (m w) as [[a|e] w1]; [apply H | reflexivity].
Qed.

(** Resolution from the token document on: with a token, the handshake is
    followed by the call of [rsa_encrypt] that raises. *)
Lemma load_key_from_token_steps (self : UserData) (w : world) :
  load_key_from_token self w
  = (has_token_file <- is_file KEY_ID_TOKEN_JSON_PATH ;;
     key_id_token <-
       (if has_token_file : bool then read_key_id_token else ret None) ;;
     match key_id_token with
     | None => new_chacha20_key
     | Some _ =>
         get_csrf_token ;;
         raise (TypeError
           "rsa_encrypt() got an unexpected keyword argument 'digest_method'")
     end) w.
Proof.
  unfold load_key_from_token.
  apply bind_ext; intros has_token_file w1.
  apply bind_ext; intros [token|] w2; [|reflexivity].
  apply bind_ext; intros [csrf_token cookies] w3. reflexivity.
Qed.

(** [save_key]: when the key is to be escrowed, likewise. *)
Lemma save_key_steps (self : UserData) (save_locally : bool) (w : world) :
  save_key self save_locally w
  = (has_key_file <- is_file SECRET_KEY_PATH ;;
     already_local <-
       (if has_key_file : bool then
          content <- read_bytes SECRET_KEY_PATH ;;
          ret (bool_decide (content = secret_key self))
        else ret false) ;;
     if already_local : bool then ret tt else
     has_token_file <- is_file KEY_ID_TOKEN_JSON_PATH ;;
     if has_token_file : bool then ret tt else
     if save_locally then write_bytes SECRET_KEY_PATH (secret_key self) else
     get_csrf_token ;;
     raise (TypeError
       "rsa_encrypt() got an unexpected keyword argument 'digest_method'")) w.
Proof.
  unfold save_key.
  apply bind_ext; intros has_key_file w1.
  apply bind_ext; intros [|] w2; [reflexivity|].
  apply bind_ext; intros [|] w3; [reflexivity|].
  destruct save_locally; [reflexivity|].
  apply bind_ext; intros [csrf_token cookies] w4. reflexivity.
Qed.

Lemma load_key_with_key_pair (self : UserData) (private public : string)
    (w : world) :
  load_key (with_key_pair self private public) w = load_key self w.
Proof.
  unfold load_key.
  apply bind_ext; intros has_key_file w1.
  apply bind_ext; intros [key|] w2; [reflexivity|].
  now rewrite !load_key_from_token_steps.
Qed.

Lemma save_key_with_key_pair (self : UserData) (private public : string)
    (save_locally : bool) (w : world) :
  save_key (with_key_pair self private public) save_locally w
  = save_key self save_locally w.
Proof. now rewrite !save_key_steps. Qed.

(** The statements of [UserData.__init__] after the first, with another
    key pair: the same object but for the pair, in the same world. *)
Lemma after_key_generation_with_key_pair (c : secure_class)
    (data_path : path) (data : pyvalue) (key_pair other : list byte * list byte)
    (w : world) :
  pem_is_text key_pair = true ->
  pem_is_text other = true ->
  after_key_generation c data_path data other w
  = (match fst (after_key_generation c data_path data key_pair w) with
     | Ok self =>
         Ok (with_key_pair self (string_of_list_byte (fst other))
               (string_of_list_byte (snd other)))
     | Raise e => Raise e
     end,
     snd (after_key_generation c data_path data key_pair w)).
Proof.
  unfold pem_is_text. intros Hpair Hother.
  apply andb_prop in Hpair as [Hprivate Hpublic].
  apply andb_prop in Hother as [Hprivate' Hpublic'].
  unfold after_key_generation, bytes_decode.
  rewrite Hprivate, Hpublic, Hprivate', Hpublic'. msimpl.
  destruct (load_client_digest_method w) as [[method|e] w1];
    [|reflexivity].
  set (server := if is_the_str method "sha512"
                 then "sha512"%string else "sha256"%string).
  set (self :=
         {| cls := c; private_key := string_of_list_byte (fst key_pair);
            public_key := string_of_list_byte (snd key_pair);
            client_digest_method := method; server_digest_method := server;
            data_path := data_path; secret_key := []; data := VNone |}).
  set (self' :=
         {| cls := c; private_key := string_of_list_byte (fst other);
            public_key := string_of_list_byte (snd other);
            client_digest_method := method; server_digest_method := server;
            data_path := data_path; secret_key := []; data := VNone |}).
  assert (Hkey : load_key self' w1 = load_key self w1)
    by exact (load_key_with_key_pair self _ _ w1).
  rewrite Hkey.
  destruct (load_key self w1) as [[secret|e] w2]; [|reflexivity].
  cbn [fst snd].
  destruct (is_None data); [|reflexivity].
  change (load_data_method (with_secret_key self' secret))
    with (load_data_method (with_secret_key self secret)).
  destruct (load_data_method _ w2) as [[loaded|e] w3]; reflexivity.
Qed.

(** C8, amended. Each construction of a vault object generates exactly one
    RSA key pair, of 2048 bits with the public exponent 65537, and keeps
    its PEM encoding in the fields of the object; so a process generates
    one pair for each object it constructs, not one in all. The pair is
    never written to disk. The construction leaves every path as it was, or
    as the configuration step alone leaves it, or gone, and it leaves the
    same files whatever the pair generated is; and the files that
    [save_key], [load_key], [encrypt_data] and [decrypt_data] leave are the
    same whatever pair the object holds. *)
Theorem one_key_pair_per_construction (c : secure_class) (data_path : path)
    (data : pyvalue) (w : world) :
  let run := UserData_init c data_path data w in
  let key := rsa_generate_private_key 65537 2048 (seed w) in
  generated_keys (log (snd run)) = S (generated_keys (log w)) /\
  (forall self,
     fst run = Ok self ->
     private_key self = string_of_list_byte (private_bytes key) /\
     public_key self = string_of_list_byte (public_bytes key)) /\
  (forall p,
     fs (snd run) !! p = fs w !! p \/
     fs (snd run) !! p = fs (snd (load_client_digest_method w)) !! p \/
     fs (snd run) !! p = None) /\
  (forall other,
     pem_is_text (private_bytes key, public_bytes key) = true ->
     pem_is_text other = true ->
     fs (snd (after_key_generation c data_path data other
                (add_log (GeneratedRSAKey 65537 2048) (next_seed w))))
     = fs (snd run)) /\
  (forall self private public save_locally data_arg decode schema regex w1,
     let other := with_key_pair self private public in
     fs (snd (save_key other save_locally w1))
     = fs (snd (save_key self save_locally w1)) /\
     fs (snd (load_key other w1)) = fs (snd (load_key self w1)) /\
     fs (snd (encrypt_data other data_arg w1))
     = fs (snd (encrypt_data self data_arg w1)) /\
     fs (snd (decrypt_data other decode schema regex w1))
     = fs (snd (decrypt_data self decode schema regex w1))).
Proof.
  intros run key. subst run. rewrite UserData_init_steps. fold key.
  set (w0 := add_log (GeneratedRSAKey 65537 2048) (next_seed w)).
  split; [|split; [|split; [|split]]].
  - pose proof (keeps_key_count_after_key_generation c data_path data
                  (private_bytes key, public_bytes key) w0) as Hkept.
    cbn [changes keeps_key_count] in Hkept. rewrite Hkept.
    subst w0. unfold add_log, generated_keys. cbn [log next_seed].
    rewrite List.filter_app, length_app. cbn. lia.
  - intros self. unfold after_key_generation. cbn [fst snd].
    unfold bytes_decode.
    destruct (utf8_valid (private_bytes key)); [|discriminate].
    destruct (utf8_valid (public_bytes key)); [|discriminate].
    msimpl.
    destruct (load_client_digest_method w0) as [[method|e] w1];
      [|discriminate].
    destruct (load_key _ w1) as [[secret|e] w2]; [|discriminate].
    destruct (is_None data).
    + destruct (load_data_method _ w2) as [[loaded|e] w3]; [|discriminate].
      intros [= <-]. now split.
    + intros [= <-]. now split.
  - intros p. subst w0.
    destruct (files_after_key_generation c data_path data
                (private_bytes key, public_bytes key)
                (add_log (GeneratedRSAKey 65537 2048) (next_seed w)) p)
      as [H | [H | H]]; rewrite H; auto.
    right. left.
    now destruct (fsd_load_client_digest_method
                    (add_log (GeneratedRSAKey 65537 2048) (next_seed w)) w
                    eq_refl) as [_ ->].
  - intros other Hpair Hother.
    now rewrite (after_key_generation_with_key_pair c data_path data
                   (private_bytes key, public_bytes key) other w0
                   Hpair Hother).
  - intros self private public save_locally data_arg decode schema regex w1
      other. subst other.
    rewrite save_key_with_key_pair, load_key_with_key_pair.
    repeat split; reflexivity.
Qed.

End TransportKeys.

Import Demo.

(** The claim as first stated fails: one process execution that saves two
    cookie jars generates two key pairs. *)
Lemma two_jars_two_key_pairs :
  fst (two_jars empty_world) = Ok (true, true) /\
  generated_keys (log (snd (two_jars empty_world))) = 2%nat.
Proof. vm_compute. split; reflexivity. Qed.

Lemma one_key_pair_witness :
  generated_keys
    (log (snd (UserData_init (SecureCookie "fantia") FANTIA_COOKIE_PATH
                 demo_cookie empty_world)))
  = 1%nat /\
  fs (snd (after_key_generation (SecureCookie "fantia") FANTIA_COOKIE_PATH
             demo_cookie
             (list_byte_of_string "zzzz", list_byte_of_string "ZZZZ")
             (add_log (GeneratedRSAKey 65537 2048) (next_seed empty_world))))
  = fs (snd (UserData_init (SecureCookie "fantia") FANTIA_COOKIE_PATH
               demo_cookie empty_world)).
Proof.
  pose proof (@one_key_pair_per_construction demo_constants demo_library
                (SecureCookie "fantia") FANTIA_COOKIE_PATH demo_cookie
                empty_world) as (Hcount & _ & _ & Hdisk & _).
  split; [exact Hcount|].
  apply Hdisk; reflexivity.
Defined.

End TransportKeys.

(** ** Worker threads and their managers *)

Module Workers.
Import Retries.

Section Workers.
Context `{C : Constants} `{L : Library}.

(** A run of attempts is determined by the world it starts in. *)
Lemma retried_run_det {A} (attempt : M A) caught delay budget w
    errors1 final1 w1 errors2 final2 w2 :
  retried_run attempt caught delay budget w errors1 final1 w1 ->
  retried_run attempt caught delay budget w errors2 final2 w2 ->
  errors1 = errors2 /\ final1 = final2 /\ w1 = w2.
Proof.
  intros Hrun1. revert errors2 final2 w2.
  induction Hrun1 as
    [ budget w a w1 Hattempt
    | budget w e w1 Hattempt Hcaught
    | w e w1 Hattempt Hcaught
    | budget w e w1 errors final w2 Hattempt Hcaught Hrest IH ];
    intros errors2 final2 w3 Hrun2; inversion Hrun2; subst;
    try (rewrite Hattempt in *; simplify_eq; auto; fail);
    try (match goal with
         | H : attempt w = _, H' : attempt w = _ |- _ =>
             rewrite H in H'; simplify_eq
         end; try congruence; auto).
  - match goal with
    | H : retried_run _ _ _ _ _ _ _ _ |- _ =>
        destruct (IH _ _ _ H) as (-> & -> & ->)
    end. auto.
Qed.

Lemma for_each_join_all (ts : list thread) (w : world) :
  Forall (fun t => exec t = None) ts ->
  for_each join ts w = (Ok tt, add_logs (map joined_line ts) w).
Proof.
  intros Hall. revert w. induction Hall as [|t ts Ht Hts IH]; intros w.
  - cbn. unfold ret, add_logs. destruct w; cbn. now rewrite app_nil_r.
  - cbn [for_each map]. unfold bind, join at 1, emit. rewrite Ht. cbn.
    rewrite IH. unfold add_logs, joined_line. cbn.
    now rewrite <- app_assoc.
Qed.

Lemma for_each_join_raises (before after : list thread) (t : thread)
    (e : exn) (w : world) :
  Forall (fun t => exec t = None) before ->
  exec t = Some e ->
  for_each join (before ++ t :: after) w
  = (Raise e, add_logs (map joined_line (before ++ [t])) w).
Proof.
  intros Hall He. revert w. induction Hall as [|t0 ts Ht Hts IH]; intros w.
  - cbn. unfold bind, join, emit. rewrite He. reflexivity.
  - cbn [for_each map app]. unfold bind, join at 1, emit. rewrite Ht. cbn.
    rewrite IH. unfold add_logs, joined_line. cbn.
    now rewrite <- app_assoc.
Qed.

Lemma for_each_report (ts : list thread) (w : world) :
  for_each report ts w = (Ok tt, add_logs (map report_line ts) w).
Proof.
  revert w. induction ts as [|t ts IH]; intros w.
  - cbn. unfold ret, add_logs. destruct w; cbn. now rewrite app_nil_r.
  - cbn [for_each map]. unfold bind, report at 1, report_line at 1.
    destruct (falsy (result t)); unfold emit; rewrite IH;
      unfold add_logs; cbn; now rewrite <- app_assoc.
Qed.

(** When the last attempt at the key fails with an exception of the retry
    clause (an [APIServerError] for an HTTP 500, say), [save_data] raises
    nothing and returns [False]. *)
Lemma save_data_without_key (obj : secure_class) (save_key_locally : bool)
    (data : pyvalue) (w : world) :
  (0 < MAX_RETRIES)%nat ->
  (forall errors e w1,
     retried_run (construct obj data) caught_by_retry RETRY_DELAY
       MAX_RETRIES w errors (Raise e) w1 ->
     caught_by_retry e = true ->
     save_data obj save_key_locally data w = (Ok false, w1)) /\
  (forall errors secure_obj w1 errors' e w2,
     retried_run (construct obj data) caught_by_retry RETRY_DELAY
       MAX_RETRIES w errors (Ok secure_obj) w1 ->
     retried_run (save_key secure_obj save_key_locally) caught_by_retry
       RETRY_DELAY MAX_RETRIES w1 errors' (Raise e) w2 ->
     caught_by_retry e = true ->
     save_data obj save_key_locally data w = (Ok false, w2)).
Proof.
  intros Hbudget.
  destruct MAX_RETRIES as [|budget] eqn:Hmax; [lia|].
  destruct (load_key_loop_run obj data budget 1 w)
    as (errors0 & final0 & w0 & Hrun0 & Hloop0); [lia|].
  assert (Hload : load_key_with_retries obj data w
                  = (after_retries caught_by_retry Some None final0, w0)).
  { unfold load_key_with_retries. rewrite Hmax. exact Hloop0. }
  split.
  - intros errors e w1 Hrun Hcaught.
    destruct (retried_run_det _ _ _ _ _ _ _ _ _ _ _ Hrun0 Hrun)
      as (_ & -> & ->).
    unfold save_data, bind. rewrite Hload. cbn [after_retries].
    now rewrite Hcaught.
  - intros errors secure_obj w1 errors' e w2 Hrun Hsave Hcaught.
    destruct (retried_run_det _ _ _ _ _ _ _ _ _ _ _ Hrun0 Hrun)
      as (_ & -> & ->).
    destruct (save_key_loop_run secure_obj save_key_locally budget 1 w1)
      as (errors1 & final1 & w3 & Hrun1 & Hloop1); [lia|].
    destruct (retried_run_det _ _ _ _ _ _ _ _ _ _ _ Hrun1 Hsave)
      as (_ & -> & ->).
    unfold save_data, bind. rewrite Hload. cbn [after_retries].
    unfold save_key_with_retries. rewrite Hmax, Hloop1.
    cbn [after_retries]. now rewrite Hcaught.
Qed.

(** C7, amended. An exception raised inside a worker is caught by [run]
    and kept in the [exec] of that worker; it does not leave the worker.
    The manager waits for the workers in the order they were started.
    When none has kept an exception, all are waited for and the result of
    each is reported (or, for [load_cookies], returned). When one has, the
    exception of the first such worker is raised at its [join]: the
    workers started after it are not waited for, and no result is
    reported. An [APIServerError] (HTTP 500 of the escrow service) never
    reaches [exec]: the retry wrappers turn it into the result [False], so
    the worker it hits is reported as failed and the others as they
    ended. *)
Theorem workers_are_joined_in_order (finished : thread -> thread)
    (login_results : list (option (pyvalue * string * bool)))
    (websites : list string) (savers loaders : list thread) (w : world) :
  (0 < MAX_RETRIES)%nat ->
  start_save_threads login_results w = (Ok savers, w) ->
  start_load_threads websites w = (Ok loaders, w) ->
  (forall t w0,
     run t w0
     = match target (work t) w0 with
       | (Ok r, w1) => (set_result t r, w1)
       | (Raise e, w1) => (set_exec t e, w1)
       end) /\
  (Forall (fun t => exec (finished t) = None) savers ->
   save_cookies finished login_results w
   = (Ok tt,
      add_logs (map joined_line (map finished savers) ++
                map report_line (map finished savers)) w)) /\
  (forall before t after e,
     savers = before ++ t :: after ->
     Forall (fun t => exec (finished t) = None) before ->
     exec (finished t) = Some e ->
     save_cookies finished login_results w
     = (Raise e, add_logs (map joined_line (map finished (before ++ [t]))) w)) /\
  (Forall (fun t => exec (finished t) = None) loaders ->
   load_cookies finished websites w
   = (Ok (map finished loaders),
      add_logs (map joined_line (map finished loaders)) w)) /\
  (forall before t after e,
     loaders = before ++ t :: after ->
     Forall (fun t => exec (finished t) = None) before ->
     exec (finished t) = Some e ->
     load_cookies finished websites w
     = (Raise e, add_logs (map joined_line (map finished (before ++ [t]))) w)) /\
  (forall t cookie website save_locally w0 errors d w1,
     work t = SaveCookie cookie website save_locally ->
     retried_run (construct (SecureCookie website) cookie) caught_by_retry
       RETRY_DELAY MAX_RETRIES w0 errors (Raise (APIServerError d)) w1 ->
     run t w0 = (set_result t (VJson (JBool false)), w1)) /\
  (forall t cookie website save_locally w0 errors secure_obj w1 errors' d w2,
     work t = SaveCookie cookie website save_locally ->
     retried_run (construct (SecureCookie website) cookie) caught_by_retry
       RETRY_DELAY MAX_RETRIES w0 errors (Ok secure_obj) w1 ->
     retried_run (save_key secure_obj save_locally) caught_by_retry
       RETRY_DELAY MAX_RETRIES w1 errors' (Raise (APIServerError d)) w2 ->
     run t w0 = (set_result t (VJson (JBool false)), w2) /\
     report_line (set_result t (VJson (JBool false)))
     = PrintedDanger (readable_website t)).
Proof.
  intros Hbudget Hsavers Hloaders.
  assert (Hall : forall ts,
            Forall (fun t => exec (finished t) = None) ts ->
            Forall (fun t => exec t = None) (map finished ts)).
  { intros ts Hts. now apply Forall_map. }
  split; [|split; [|split; [|split; [|split; [|split]]]]].
  - reflexivity.
  - intros Hok. unfold save_cookies, bind. rewrite Hsavers.
    rewrite (for_each_join_all _ _ (Hall _ Hok)), for_each_report.
    unfold add_logs. cbn. now rewrite <- app_assoc.
  - intros before t after e -> Hok He. unfold save_cookies, bind.
    rewrite Hsavers. rewrite map_app. cbn [map].
    rewrite (for_each_join_raises _ _ _ e _ (Hall _ Hok) He).
    now rewrite !map_app.
  - intros Hok. unfold load_cookies, bind. rewrite Hloaders.
    now rewrite (for_each_join_all _ _ (Hall _ Hok)).
  - intros before t after e -> Hok He. unfold load_cookies, bind.
    rewrite Hloaders. rewrite map_app. cbn [map].
    rewrite (for_each_join_raises _ _ _ e _ (Hall _ Hok) He).
    now rewrite !map_app.
  - intros t cookie website save_locally w0 errors d w1 Hwork Hload.
    unfold run, target. rewrite Hwork. unfold bind at 1.
    destruct (save_data_without_key (SecureCookie website) save_locally
                cookie w0 Hbudget) as [Hfalse _].
    now rewrite (Hfalse errors _ w1 Hload eq_refl).
  - intros t cookie website save_locally w0 errors secure_obj w1 errors' d w2
      Hwork Hload Hsave.
    split; [|reflexivity].
    unfold run, target. rewrite Hwork. unfold bind at 1.
    destruct (save_data_without_key (SecureCookie website) save_locally
                cookie w0 Hbudget) as [_ Hfalse].
    now rewrite (Hfalse errors secure_obj w1 errors' _ w2 Hload Hsave eq_refl).
Qed.

End Workers.

Import Demo.

(** The claim as first stated fails: the second of three workers fails to
    write its jar, its exception is raised at its [join], and the manager
    ends without having waited for the third worker and without reporting
    any result. *)
Lemma third_worker_is_not_awaited :
  fst (save_cookies (finished_in fanbox_jar_is_directory) three_logins
         empty_world)
  = Raise (OSError "is a directory") /\
  log (snd (save_cookies (finished_in fanbox_jar_is_directory) three_logins
              empty_world))
  = [Joined "fantia"; Joined "pixiv_fanbox"].
Proof. vm_compute. split; reflexivity. Qed.

(** With the escrow service answering HTTP 500 to the second worker only,
    all three are waited for; the first and the third are reported as
    saved and the second as failed. *)
Example http_500_is_reported_as_failure :
  save_cookies finished_with_500 three_escrow_logins empty_world
  = (Ok tt,
     add_logs
       [ Joined "fantia"; Joined "pixiv_fanbox"; Joined "fantia";
         PrintedSuccess "Fantia"; PrintedDanger "Pixiv Fanbox";
         PrintedSuccess "Fantia" ]
       empty_world).
Proof. vm_compute. reflexivity. Qed.

Lemma workers_are_joined_witness :
  save_cookies (finished_in fanbox_jar_is_directory) three_logins empty_world
  = (Raise (OSError "is a directory"),
     add_logs
       (map joined_line
          (map (finished_in fanbox_jar_is_directory)
             ([saver "fantia" "Fantia" true] ++
              [saver "pixiv_fanbox" "Pixiv Fanbox" true])))
       empty_world).
Proof.
  refine (proj1 (proj2 (proj2
           (@workers_are_joined_in_order demo_constants demo_library
              (finished_in fanbox_jar_is_directory) three_logins []
              [ saver "fantia" "Fantia" true;
                saver "pixiv_fanbox" "Pixiv Fanbox" true;
                saver "fantia" "Fantia" true ]
              [] empty_world _ eq_refl eq_refl)))
           [saver "fantia" "Fantia" true]
           (saver "pixiv_fanbox" "Pixiv Fanbox" true)
           [saver "fantia" "Fantia" true]
           (OSError "is a directory") eq_refl _ _).
  - vm_compute. lia.
  - repeat constructor.
  - vm_compute. reflexivity.
Defined.

End Workers.
